(** * ai-dial-adapter-bedrock: message model, tool reconciliation, finish
      reasons, prompt truncation and Llama chat emulation

    A shallow embedding of

    - [aidial_adapter_bedrock/llm/message.py]            (module [Message]),
    - [aidial_adapter_bedrock/llm/model/claude/v3/tools.py]      (module [Tools]),
    - [aidial_adapter_bedrock/llm/model/claude/v3/converters.py] (module
      [Converters], the finish-reason mapper),
    - the helpers of [tests/unit_tests/chat_emulation/test_llama_chat.py]
      (module [TestLlamaChat]),
    - the tool-use blocks of [tools.py] (module [ToolBlocks]), the message
      and attachment conversion of [converters.py] (module
      [ClaudeMessages]) and the storage client of
      [aidial_adapter_bedrock/dial_api/storage.py] (module [Storage]),

    together with models of the prompt truncator and of the Llama chat
    emulator, whose modules the repository's test imports
    ([llm/truncate_prompt.py], [llm/chat_model.py], [llm/model/llama_chat.py])
    but whose code is not among the sources at hand: these are written from the
    design document and pinned down by the test's expectations (modules
    [TruncatePrompt] and [LlamaChat]).

    Python exceptions are values: a function that may raise returns a
    [result], whose [Raise] case carries the exception. *)

From Stdlib Require Import ZArith List String Ascii Bool Lia DecimalString Sorted.
Import ListNotations.

Local Open Scope string_scope.
Local Open Scope list_scope.

(** ** Exceptions and results *)

(** The exception classes the embedded code raises.  [ValidationError] is the
    adapter's own ([llm/errors.py]); the others are Python's built-ins
    ([assert_never] raises [AssertionError]). *)
Inductive Error : Type :=
| ValidationError (message : string)
| ValueError (message : string)
| AssertionError
| PlainException (message : string).

Inductive result (A : Type) : Type :=
| Ok (a : A)
| Raise (e : Error).

Arguments Ok {A} a.
Arguments Raise {A} e.

Definition is_validation_error {A : Type} (r : result A) : bool :=
  match r with
  | Raise (ValidationError _) => true
  | _ => false
  end.

(** ** llm/message.py *)

Module Message.

(** The wire types come from [aidial_sdk.chat_completion]; only the fields
    the adapter reads are kept. *)
Inductive Role : Type := SYSTEM | USER | ASSISTANT | FUNCTION | TOOL.

Record FunctionCall : Type := mkFunctionCall {
  fc_name : string;
  fc_arguments : string
}.

Record ToolCall : Type := mkToolCall {
  tc_index : option Z;
  tc_id : string;
  tc_type : string;
  tc_function : FunctionCall
}.

Record Attachment : Type := mkAttachment {
  att_type : option string;
  att_data : option string;
  att_url : option string
}.

Record CustomContent : Type := mkCustomContent {
  attachments : option (list Attachment)
}.

(** [aidial_sdk.chat_completion.Message]. *)
Record WireMessage : Type := mkWireMessage {
  role : Role;
  content : option string;
  custom_content : option CustomContent;
  name : option string;
  tool_calls : option (list ToolCall);
  tool_call_id : option string;
  function_call : option FunctionCall
}.

(** [BaseMessage = Union[SystemMessage, HumanRegularMessage, AIRegularMessage]] *)
Inductive BaseMessage : Type :=
| SystemMessage (content : string)
| HumanRegularMessage (content : string) (custom_content : option CustomContent)
| AIRegularMessage (content : string) (custom_content : option CustomContent).

(** [ToolMessage = Union[HumanToolResultMessage, HumanFunctionResultMessage,
    AIToolCallMessage, AIFunctionCallMessage]] *)
Inductive ToolMessage : Type :=
| HumanToolResultMessage (id : string) (content : string)
| HumanFunctionResultMessage (name : string) (content : string)
| AIToolCallMessage (calls : list ToolCall) (content : option string)
| AIFunctionCallMessage (call : FunctionCall) (content : option string).

(** [BaseMessage | ToolMessage]; [isinstance(m, BaseMessage)] is the test
    for the [Base] tag. *)
Inductive AnyMessage : Type :=
| Base (m : BaseMessage)
| Tool (m : ToolMessage).

Definition is_base (m : AnyMessage) : bool :=
  match m with Base _ => true | Tool _ => false end.

(** The [to_message] methods. *)
Definition base_to_message (m : BaseMessage) : WireMessage :=
  match m with
  | SystemMessage c =>
      mkWireMessage SYSTEM (Some c) None None None None None
  | HumanRegularMessage c cc =>
      mkWireMessage USER (Some c) cc None None None None
  | AIRegularMessage c cc =>
      mkWireMessage ASSISTANT (Some c) cc None None None None
  end.

Definition tool_to_message (m : ToolMessage) : WireMessage :=
  match m with
  | HumanToolResultMessage i c =>
      mkWireMessage TOOL (Some c) None None None (Some i) None
  | HumanFunctionResultMessage n c =>
      mkWireMessage FUNCTION (Some c) None (Some n) None None None
  | AIToolCallMessage calls c =>
      mkWireMessage ASSISTANT c None None (Some calls) None None
  | AIFunctionCallMessage call c =>
      mkWireMessage ASSISTANT c None None None None (Some call)
  end.

Definition to_message (m : AnyMessage) : WireMessage :=
  match m with
  | Base b => base_to_message b
  | Tool t => tool_to_message t
  end.

Definition _parse_assistant_message
    (content : option string)
    (function_call : option FunctionCall)
    (tool_calls : option (list ToolCall))
    (custom_content : option CustomContent) : result AnyMessage :=
  match content, function_call, tool_calls with
  | Some c, None, None => Ok (Base (AIRegularMessage c custom_content))
  | _, Some call, None => Ok (Tool (AIFunctionCallMessage call content))
  | _, None, Some calls => Ok (Tool (AIToolCallMessage calls content))
  | _, _, _ => Raise (ValidationError "Unknown type of assistant message")
  end.

Definition parse_dial_message (msg : WireMessage) : result AnyMessage :=
  let unknown :=
    Raise (ValidationError "Unknown message type or invalid message") in
  match role msg with
  | SYSTEM =>
      match content msg with
      | Some c => Ok (Base (SystemMessage c))
      | None => unknown
      end
  | USER =>
      match content msg with
      | Some c => Ok (Base (HumanRegularMessage c (custom_content msg)))
      | None => unknown
      end
  | ASSISTANT =>
      _parse_assistant_message (content msg) (function_call msg)
        (tool_calls msg) (custom_content msg)
  | FUNCTION =>
      match content msg, name msg with
      | Some c, Some n => Ok (Tool (HumanFunctionResultMessage n c))
      | _, _ => unknown
      end
  | TOOL =>
      match content msg, tool_call_id msg with
      | Some c, Some i => Ok (Tool (HumanToolResultMessage i c))
      | _, _ => unknown
      end
  end.

End Message.

(** ** llm/tools/tools_config.py: the calling convention of a request *)

Inductive ToolsMode : Type := TOOLS | FUNCTIONS.

(** ** llm/model/claude/v3/tools.py *)

Module Tools.
Import Message.

Definition class_name (m : AnyMessage) : string :=
  match m with
  | Base (SystemMessage _) => "SystemMessage"
  | Base (HumanRegularMessage _ _) => "HumanRegularMessage"
  | Base (AIRegularMessage _ _) => "AIRegularMessage"
  | Tool (HumanToolResultMessage _ _) => "HumanToolResultMessage"
  | Tool (HumanFunctionResultMessage _ _) => "HumanFunctionResultMessage"
  | Tool (AIToolCallMessage _ _) => "AIToolCallMessage"
  | Tool (AIFunctionCallMessage _ _) => "AIFunctionCallMessage"
  end.

(** [f"Unknown message type {type(message)}"] *)
Definition unknown_message_type (m : AnyMessage) : string :=
  "Unknown message type <class 'aidial_adapter_bedrock.llm.message."
    ++ class_name m ++ "'>".

Definition no_config_error : string :=
  "You cannot use messages with functions or tools without config. Please change your messages.".

Definition functions_with_tools_error : string :=
  "You cannot use function messages with tools config.".

Definition tools_with_functions_error : string :=
  "You cannot use tools messages with functions config.".

Definition process_with_tools
    (message : AnyMessage) (tools_mode : option ToolsMode)
    : result AnyMessage :=
  match tools_mode with
  | None =>
      if negb (is_base message)
      then Raise (ValidationError no_config_error)
      else Ok message
  | Some TOOLS =>
      match message with
      | Tool (HumanFunctionResultMessage _ _)
      | Tool (AIFunctionCallMessage _ _) =>
          Raise (ValidationError functions_with_tools_error)
      | _ => Ok message
      end
  | Some FUNCTIONS =>
      match message with
      | Base (HumanRegularMessage _ _) => Ok message
      | Tool (HumanToolResultMessage _ _)
      | Tool (AIToolCallMessage _ _) =>
          Raise (ValidationError tools_with_functions_error)
      | Tool (AIFunctionCallMessage call content) =>
          Ok (Tool (AIToolCallMessage
                      [mkToolCall None (fc_name call) "function" call]
                      content))
      | Tool (HumanFunctionResultMessage name content) =>
          Ok (Tool (HumanToolResultMessage name content))
      | _ => Raise (ValueError (unknown_message_type message))
      end
  end.

(** Reading a rewritten message back: the function call is the payload of
    the single synthesized tool call, the function name is the tool id. *)
Definition function_message_of (m : AnyMessage) : option AnyMessage :=
  match m with
  | Tool (AIToolCallMessage [call] content) =>
      Some (Tool (AIFunctionCallMessage (tc_function call) content))
  | Tool (HumanToolResultMessage id content) =>
      Some (Tool (HumanFunctionResultMessage id content))
  | _ => None
  end.

(** Which convention a message belongs to. *)
Definition is_function_message (m : AnyMessage) : bool :=
  match m with
  | Tool (HumanFunctionResultMessage _ _)
  | Tool (AIFunctionCallMessage _ _) => true
  | _ => false
  end.

Definition is_tool_message (m : AnyMessage) : bool :=
  match m with
  | Tool (HumanToolResultMessage _ _)
  | Tool (AIToolCallMessage _ _) => true
  | _ => false
  end.

(** The message's calling convention conflicts with the mode. *)
Definition conflicts (m : AnyMessage) (tools_mode : option ToolsMode) : bool :=
  match tools_mode with
  | None => negb (is_base m)
  | Some TOOLS => is_function_message m
  | Some FUNCTIONS => is_tool_message m
  end.

End Tools.

(** ** llm/model/claude/v3/converters.py: the finish-reason mapper *)

Module Converters.

(** [aidial_sdk.chat_completion.FinishReason], the members the mapper
    returns. *)
Inductive FinishReason : Type := STOP | LENGTH | TOOL_CALLS | FUNCTION_CALL.

(** [ClaudeFinishReason = Literal["end_turn", "max_tokens", "stop_sequence",
    "tool_use"]]: a string at run time. *)
Definition ClaudeFinishReason : Type := string.

Definition claude_finish_reasons : list ClaudeFinishReason :=
  ["end_turn"; "max_tokens"; "stop_sequence"; "tool_use"].

Definition no_tools_given_error : string :=
  "A model has called a tool, but no tools were given to the model in the first place.".

(** [ToolsMode] has two members, so the source's last
    [case _: raise Exception(...)] under ["tool_use"] matches nothing. *)
Definition to_dial_finish_reason
    (finish_reason : option ClaudeFinishReason)
    (tools_mode : option ToolsMode) : result FinishReason :=
  match finish_reason with
  | None => Ok STOP
  | Some r =>
      if r =? "end_turn" then Ok STOP
      else if r =? "max_tokens" then Ok LENGTH
      else if r =? "stop_sequence" then Ok STOP
      else if r =? "tool_use" then
        match tools_mode with
        | Some TOOLS => Ok TOOL_CALLS
        | Some FUNCTIONS => Ok FUNCTION_CALL
        | None => Raise (ValidationError no_tools_given_error)
        end
      else Raise AssertionError
  end.

End Converters.

(** ** Text helpers: Python's [str.strip], [str.split] and [str(int)]

    Strings are sequences of ASCII characters; the whitespace characters are
    the ASCII ones for which Python's [str.isspace] holds. *)

Module Text.

Definition is_space (c : ascii) : bool :=
  let n := nat_of_ascii c in
  (((9 <=? n) && (n <=? 13)) || ((28 <=? n) && (n <=? 32)))%nat.

Fixpoint lstrip (s : string) : string :=
  match s with
  | EmptyString => EmptyString
  | String c rest => if is_space c then lstrip rest else s
  end.

Fixpoint rstrip (s : string) : string :=
  match s with
  | EmptyString => EmptyString
  | String c rest =>
      match rstrip rest with
      | EmptyString => if is_space c then EmptyString else String c EmptyString
      | rest' => String c rest'
      end
  end.

(** [s.strip()] *)
Definition strip (s : string) : string := lstrip (rstrip s).

(** [len(s.split())]: the number of maximal runs of non-whitespace
    characters; [in_word] tells whether the previous character was part of
    one. *)
Fixpoint count_words_from (in_word : bool) (s : string) : nat :=
  match s with
  | EmptyString => 0
  | String c rest =>
      if is_space c then count_words_from false rest
      else (if in_word then 0 else 1) + count_words_from true rest
  end.

Definition count_words (s : string) : nat := count_words_from false s.


Definition newline : string := String (ascii_of_nat 10) EmptyString.

End Text.

(** ** llm/truncate_prompt.py (modelled) *)

Module TruncatePrompt.

(** Modelled from the spec: the error of [llm/truncate_prompt.py], which
    carries the computed mandatory-token count and the budget.  The test
    reads its text through [print()]. *)
Record TruncatePromptError : Type := mkTruncatePromptError {
  mandatory_count : Z;
  budget : Z
}.




(** Modelled from the spec: the outcome of [truncate_prompt]
    ([Set[int] | TruncatePromptError] in the test's annotation): the
    indices to discard, ascending, or the error.  A typed outcome, not an
    exception. *)
Inductive TruncationOutcome : Type :=
| Discarded (indices : list nat)
| Failed (e : TruncatePromptError).

(** Modelled from the spec: the effective budget is the smaller of the
    model's hard limit and the caller's limit when both are present. *)
Definition effective_budget (model_limit : option Z) (user_limit : Z) : Z :=
  match model_limit with
  | Some m => Z.min m user_limit
  | None => user_limit
  end.

(** [i in indices] *)
Definition mem (i : nat) (indices : list nat) : bool :=
  existsb (Nat.eqb i) indices.

(** Modelled from the spec: the result of the truncation, "the set of
    indices belonging to excluded units, in ascending order": the indices
    below [n] that belong to one of the units. *)
Definition indices_of (n : nat) (units : list (list nat)) : list nat :=
  filter (fun i => existsb (mem i) units) (seq 0 n).

(** No index occurs twice. *)
Fixpoint no_repeat (indices : list nat) : bool :=
  match indices with
  | [] => true
  | i :: rest => negb (mem i rest) && no_repeat rest
  end.

Section Generic.

(** Modelled from the spec: the parameters of [truncate_prompt], named as
    the test passes them.  The message type and the three injected
    strategies: the tokenizer over a message sequence, the mandatory
    predicate ([keep_message(messages, idx)]) and the partitioner, which
    groups the non-mandatory messages into atomic units, each the list of
    its messages' indices, oldest unit first. *)
Variable T : Type.
Variable tokenize_messages : list T -> Z.
Variable keep_message : list T -> nat -> bool.
Variable partition_messages : list T -> list (list nat).

(** Modelled from the spec: the sub-sequence the tokenizer is run on, the
    messages at the given indices, in conversation order. *)
Definition select_by_indices (messages : list T) (indices : list nat)
    : list T :=
  map snd
    (filter (fun p => mem (fst p) indices)
            (combine (seq 0 (List.length messages)) messages)).

(** Modelled from the spec: the token count of a set of messages. *)
Definition token_count (messages : list T) (indices : list nat) : Z :=
  tokenize_messages (select_by_indices messages indices).

(** Modelled from the spec: the mandatory set, the indices the predicate
    keeps whatever the budget. *)
Definition mandatory_indices (messages : list T) : list nat :=
  filter (keep_message messages) (seq 0 (List.length messages)).

(** Modelled from the spec: the walk over the units, most recent first.
    A unit is included whole while the running total (mandatory plus
    included) stays within budget; the walk stops at the first unit that
    would exceed it.  The result is the list of excluded units: the unit
    it stopped at and every older one. *)
Fixpoint walk (messages : list T) (limit : Z) (kept : list nat)
    (units : list (list nat)) : list (list nat) :=
  match units with
  | [] => []
  | unit :: older =>
      if (token_count messages (kept ++ unit) >? limit)%Z
      then units
      else walk messages limit (kept ++ unit) older
  end.

(** Modelled from the spec: [truncate_prompt] of
    [llm/truncate_prompt.py]. *)
Definition truncate_prompt (messages : list T)
    (model_limit : option Z) (user_limit : Z) : TruncationOutcome :=
  let limit := effective_budget model_limit user_limit in
  let mandatory := mandatory_indices messages in
  let count := token_count messages mandatory in
  if (count >? limit)%Z
  then Failed (mkTruncatePromptError count limit)
  else
    let units := partition_messages messages in
    Discarded
      (indices_of (List.length messages)
         (walk messages limit mandatory (rev units))).

(** Modelled from the spec: the partitioner's contract.  It groups the
    non-mandatory messages into units kept or dropped as a whole: the units
    are pairwise disjoint (no index occurs twice) and hold no mandatory
    message. *)
Definition partition_ok (messages : list T) : bool :=
  let indices := List.concat (partition_messages messages) in
  forallb (fun i => negb (keep_message messages i)) indices
  && no_repeat indices.

End Generic.

End TruncatePrompt.

(** ** llm/chat_model.py and llm/model/llama_chat.py (modelled): the canonical
       truncation policy *)

Module ChatModel.
Import Message.

(** Modelled from the spec: [default_keep_message] of [llm/chat_model.py];
    the mandatory messages are every system message and the final
    message. *)
Definition default_keep_message (messages : list BaseMessage) (idx : nat)
    : bool :=
  match nth_error messages idx with
  | Some (SystemMessage _) => true
  | Some _ => Nat.eqb idx (List.length messages - 1)
  | None => false
  end.


End ChatModel.

(** ** llm/model/llama_chat.py (modelled): the Llama chat emulator *)

Module LlamaChat.
Import Message Text.
Local Open Scope string_scope.

(** Modelled from the spec: the markers of the template of
    [llm/model/llama_chat.py], as the test's expected prompts spell them. *)
Definition B_INST : string := "[INST]".
Definition E_INST : string := "[/INST]".
Definition B_SYS : string := "<<SYS>>" ++ newline.
Definition E_SYS : string := newline ++ "<</SYS>>" ++ newline ++ newline.
Definition BOS : string := "<s>".
Definition EOS : string := "</s>".

(** Modelled from the spec: the two error texts. *)
Definition last_message_error : string :=
  "The last message must be from user".

Definition alternation_error : string :=
  "The model only supports initial optional system message and follow-up alternating human/assistant messages".

(** Modelled from the spec: a validated conversation, the optional system
    prompt, the completed (user, assistant) turns and the final user
    query. *)
Record Dialogue : Type := mkDialogue {
  system : option string;
  turns : list (string * string);
  human : string
}.

(** [isinstance(m, HumanRegularMessage)] *)
Definition is_human (m : BaseMessage) : bool :=
  match m with HumanRegularMessage _ _ => true | _ => false end.

(** [isinstance(m, AIRegularMessage)] *)
Definition is_ai (m : BaseMessage) : bool :=
  match m with AIRegularMessage _ _ => true | _ => false end.

(** [m.content] *)
Definition content_of (m : BaseMessage) : string :=
  match m with
  | SystemMessage c => c
  | HumanRegularMessage c _ => c
  | AIRegularMessage c _ => c
  end.

(** Modelled from the spec: the optional leading system message, and the
    messages after it. *)
Definition split_system (messages : list BaseMessage)
    : option string * list BaseMessage :=
  match messages with
  | SystemMessage c :: rest => (Some c, rest)
  | _ => (None, messages)
  end.

(** Modelled from the spec: the sequence ends on a user message. *)
Definition ends_on_user (messages : list BaseMessage) : bool :=
  match rev messages with
  | m :: _ => is_human m
  | [] => false
  end.

(** Modelled from the spec: strict alternation, user, assistant, user,
    assistant, ... *)
Fixpoint alternates (expect_human : bool) (messages : list BaseMessage)
    : bool :=
  match messages with
  | [] => true
  | m :: rest =>
      (if expect_human then is_human m else is_ai m)
      && alternates (negb expect_human) rest
  end.

(** Modelled from the spec: the completed turns, each user message with
    the assistant message that answers it. *)
Fixpoint pair_turns (messages : list BaseMessage) : list (string * string) :=
  match messages with
  | h :: a :: rest => (content_of h, content_of a) :: pair_turns rest
  | _ => []
  end.

(** Modelled from the spec: the two structural checks of
    [llm/model/llama_chat.py].  The design document names the checks and
    their error texts, not which of them runs first, and the tests do not
    tell; the order is a parameter of the model, and the two orders differ
    only on sequences that violate both checks. *)
Inductive CheckOrder : Type := LastMessageFirst | AlternationFirst.

Definition check_last (rest : list BaseMessage) : option Error :=
  if ends_on_user rest then None
  else Some (ValidationError last_message_error).

Definition check_alternation (rest : list BaseMessage) : option Error :=
  if alternates true rest then None
  else Some (ValidationError alternation_error).

Definition first_failure (order : CheckOrder) (rest : list BaseMessage)
    : option Error :=
  let (first, second) :=
    match order with
    | LastMessageFirst => (check_last rest, check_alternation rest)
    | AlternationFirst => (check_alternation rest, check_last rest)
    end in
  match first with
  | Some e => Some e
  | None => second
  end.

(** Modelled from the spec: the structural validation of
    [llm/model/llama_chat.py]: an optional leading system message, strict
    alternation thereafter, ending on a user message. *)
Definition validate_chat (order : CheckOrder) (messages : list BaseMessage)
    : result Dialogue :=
  let (system, rest) := split_system messages in
  match first_failure order rest with
  | Some e => Raise e
  | None =>
      Ok (mkDialogue system (pair_turns rest)
            (content_of (last rest (HumanRegularMessage "" None))))
  end.

(** Modelled from the spec: the system block goes ahead of the first user
    turn's own text. *)
Definition prepend_to_first_human_message (text : string) (d : Dialogue)
    : Dialogue :=
  match turns d with
  | (h, a) :: rest => mkDialogue (system d) ((text ++ h, a) :: rest) (human d)
  | [] => mkDialogue (system d) [] (text ++ human d)
  end.

(** Modelled from the spec: [[INST] ... [/INST]] around a user turn, with
    the sequence-start marker. *)
Definition user_turn (text : string) : string :=
  BOS ++ B_INST ++ " " ++ strip text ++ " " ++ E_INST.

(** Modelled from the spec: an assistant turn, free text followed by the
    turn terminator. *)
Definition assistant_turn (text : string) : string :=
  " " ++ strip text ++ " " ++ EOS.

(** Modelled from the spec: the serialization of
    [llm/model/llama_chat.py], with the whitespace handling the
    repository's test fixes ([test_construction_many_with_system]): the
    system block is put ahead of the first user turn's text and the turn is
    trimmed as a whole. *)
Definition create_chat_prompt (d : Dialogue) : string :=
  let d :=
    match system d with
    | Some s => prepend_to_first_human_message (B_SYS ++ s ++ E_SYS) d
    | None => d
    end in
  String.concat ""
    (map (fun t => user_turn (fst t) ++ assistant_turn (snd t)) (turns d))
  ++ user_turn (human d).

(** Modelled from the spec: [llama_emulator.display] of
    [llm/model/llama_chat.py]; the prompt and the stop sequences. *)
Definition display (order : CheckOrder) (messages : list BaseMessage)
    : result (string * list string) :=
  match validate_chat order messages with
  | Ok d => Ok (create_chat_prompt d, [])
  | Raise e => Raise e
  end.

(** Modelled from the spec: [llama_partitioner] of
    [llm/model/llama_chat.py]; the atomic units are the consecutive
    user/assistant pairs between the optional system message and the final
    message, oldest first. *)
Definition llama_partitioner (messages : list BaseMessage)
    : list (list nat) :=
  let start :=
    match messages with SystemMessage _ :: _ => 1 | _ => 0 end in
  map (fun k => [start + 2 * k; start + 2 * k + 1])
      (seq 0 ((List.length messages - start - 1) / 2)).

(** *** The template grammar, stated on the message list *)

(** user, assistant, ..., user *)
Inductive alternating : list BaseMessage -> Prop :=
| alternating_query (h : string) (cc : option CustomContent) :
    alternating [HumanRegularMessage h cc]
| alternating_turn (h a : string) (cc cc' : option CustomContent)
    (rest : list BaseMessage) :
    alternating rest ->
    alternating
      (HumanRegularMessage h cc :: AIRegularMessage a cc' :: rest).

(** A structurally valid sequence: an optional leading system message, then
    strictly alternating turns ending on a user message. *)
Inductive valid_chat : list BaseMessage -> Prop :=
| valid_without_system (rest : list BaseMessage) :
    alternating rest -> valid_chat rest
| valid_with_system (s : string) (rest : list BaseMessage) :
    alternating rest -> valid_chat (SystemMessage s :: rest).

(** A non-alternating adjacency: an assistant message first, or two
    consecutive user messages, or two consecutive assistant messages. *)
Inductive non_alternating : list BaseMessage -> Prop :=
| assistant_first (a : string) (cc : option CustomContent)
    (rest : list BaseMessage) :
    non_alternating (AIRegularMessage a cc :: rest)
| two_users (before after : list BaseMessage) (h h' : string)
    (cc cc' : option CustomContent) :
    non_alternating
      (before ++ HumanRegularMessage h cc :: HumanRegularMessage h' cc'
              :: after)%list
| two_assistants (before after : list BaseMessage) (a a' : string)
    (cc cc' : option CustomContent) :
    non_alternating
      (before ++ AIRegularMessage a cc :: AIRegularMessage a' cc' :: after)%list.

(** The prompt of a valid sequence, turn by turn: [block] is the system
    block still to be put ahead of the next user turn's text. *)
Fixpoint turns_text (block : string) (messages : list BaseMessage) : string :=
  match messages with
  | h :: a :: rest =>
      "<s>[INST] " ++ strip (block ++ content_of h) ++ " [/INST] "
        ++ strip (content_of a) ++ " </s>" ++ turns_text "" rest
  | [h] => "<s>[INST] " ++ strip (block ++ content_of h) ++ " [/INST]"
  | [] => ""
  end.

Definition system_block (s : string) : string :=
  "<<SYS>>" ++ newline ++ s ++ newline ++ "<</SYS>>" ++ newline ++ newline.

Definition prompt_text (messages : list BaseMessage) : string :=
  match messages with
  | SystemMessage s :: rest => turns_text (system_block s) rest
  | _ => turns_text "" messages
  end.

(** The reading under which every message's content is trimmed on its own
    before it is embedded. *)
Fixpoint turns_text_each_trimmed (block : string)
    (messages : list BaseMessage) : string :=
  match messages with
  | h :: a :: rest =>
      "<s>[INST] " ++ block ++ strip (content_of h) ++ " [/INST] "
        ++ strip (content_of a) ++ " </s>"
        ++ turns_text_each_trimmed "" rest
  | [h] => "<s>[INST] " ++ block ++ strip (content_of h) ++ " [/INST]"
  | [] => ""
  end.

Definition prompt_text_each_trimmed (messages : list BaseMessage) : string :=
  match messages with
  | SystemMessage s :: rest =>
      turns_text_each_trimmed (system_block (strip s)) rest
  | _ => turns_text_each_trimmed "" messages
  end.

End LlamaChat.

(** ** tests/unit_tests/chat_emulation/test_llama_chat.py: helpers and data *)

Module TestLlamaChat.
Import Message.

(** [tests.utils.messages]: [sys], [user], [ai]. *)
Definition sys (content : string) : BaseMessage := SystemMessage content.
Definition user (content : string) : BaseMessage :=
  HumanRegularMessage content None.
Definition ai (content : string) : BaseMessage :=
  AIRegularMessage content None.

(** [sum(len(msg.content.split()) for msg in messages)] *)
Definition _tokenize_by_words (messages : list BaseMessage) : Z :=
  fold_right
    (fun msg total =>
       (Z.of_nat (Text.count_words (LlamaChat.content_of msg)) + total)%Z)
    0%Z messages.

Definition truncate_prompt_by_words (messages : list BaseMessage)
    (user_limit : Z) : TruncatePrompt.TruncationOutcome :=
  TruncatePrompt.truncate_prompt BaseMessage _tokenize_by_words
    ChatModel.default_keep_message LlamaChat.llama_partitioner
    messages None user_limit.

Definition turns_sys : list BaseMessage :=
  [sys "system"; user "hello"; ai "hi"; user "ping"; ai "pong";
   user "improvise"].


End TestLlamaChat.

(** ** llm/model/claude/v3/tools.py: tool-use blocks of a response *)

Module ToolBlocks.
Import Message.

Section Blocks.

(** Parsed JSON values and [json.dumps] are Python's. *)
Variable json : Type.
Variable json_dumps : json -> string.

(** [anthropic.types.ToolUseBlock]; its [type] is always ["tool_use"]. *)
Record ToolUseBlock : Type := mkToolUseBlock {
  block_id : string;
  block_name : string;
  block_input : json
}.

Definition to_dial_function_call (block : ToolUseBlock) : FunctionCall :=
  mkFunctionCall (block_name block) (json_dumps (block_input block)).

Definition to_dial_tool_call (block : ToolUseBlock) : ToolCall :=
  mkToolCall None (block_id block) "function" (to_dial_function_call block).

(** What [process_tools_block] does to its consumer: the one method it
    calls, with its argument. *)
Inductive ConsumerCall : Type :=
| create_function_tool_call (call : ToolCall)
| create_function_call (call : FunctionCall).

(** [ToolsMode] has two members, so the source's last
    [case _: raise Exception(...)] matches nothing. *)
Definition process_tools_block (block : ToolUseBlock)
    (tools_mode : option ToolsMode) : result ConsumerCall :=
  match tools_mode with
  | Some TOOLS => Ok (create_function_tool_call (to_dial_tool_call block))
  | Some FUNCTIONS => Ok (create_function_call (to_dial_function_call block))
  | None =>
      Raise (ValidationError
               "A model has called a tool, but no tools were given to the model in the first place.")
  end.

End Blocks.

End ToolBlocks.

(** ** dial_api/storage.py *)

Module Storage.
Local Open Scope string_scope.

(** [Bucket] and [FileMetadata] are typed dictionaries. *)
Record Bucket : Type := mkBucket {
  bucket_name : string;
  appdata : string
}.

Record FileMetadata : Type := mkFileMetadata {
  meta_name : string;
  meta_parentPath : string;
  meta_bucket : string;
  meta_url : string
}.

Record FileStorage : Type := mkFileStorage {
  dial_url : string;
  api_key : string;
  bucket : option Bucket
}.

(** [FileStorage.__init__] *)
Definition new_file_storage (dial_url api_key : string) : FileStorage :=
  mkFileStorage dial_url api_key None.

Definition auth_headers (self : FileStorage) : list (string * string) :=
  [("api-key", api_key self)].

(** The requests the storage client sends. *)
Inductive Request : Type :=
| GET (url : string) (headers : list (string * string))
| PUT (url : string) (headers : list (string * string))
      (filename content_type content : string).

(** [response.raise_for_status()] raised. *)
Inductive HTTPError : Type := ClientResponseError (request : Request).

(** A method of [FileStorage] that talks to the server: from the storage
    it is called on, the requests it sent, in order, its outcome and the
    storage afterwards. *)
Definition Client (A : Type) : Type :=
  FileStorage -> list Request * (A + HTTPError) * FileStorage.

Section Server.

(** The server: the decoded body of the answer to a request, or [None]
    when the status is an error.  [mimetypes.guess_extension] is
    Python's. *)
Variable bucket_response : Request -> option Bucket.
Variable upload_response : Request -> option FileMetadata.
Variable guess_extension : string -> option string.

Definition _get_bucket : Client Bucket :=
  fun self =>
    match bucket self with
    | None =>
        let request := GET (dial_url self ++ "/v1/bucket") (auth_headers self) in
        match bucket_response request with
        | Some b =>
            ([request], inl b, mkFileStorage (dial_url self) (api_key self) (Some b))
        | None => ([request], inr (ClientResponseError request), self)
        end
    | Some b => ([], inl b, self)
    end.

Definition upload (filename content_type content : string)
    : Client FileMetadata :=
  fun self =>
    match _get_bucket self with
    | (sent, inr e, self') => (sent, inr e, self')
    | (sent, inl b, self') =>
        let ext :=
          match guess_extension content_type with
          | Some e => e
          | None => ""
          end in
        let url :=
          dial_url self' ++ "/v1/files/" ++ appdata b ++ "/" ++ filename ++ ext in
        let request := PUT url (auth_headers self') filename content_type content in
        match upload_response request with
        | Some meta => ((sent ++ [request])%list, inl meta, self')
        | None =>
            ((sent ++ [request])%list, inr (ClientResponseError request), self')
        end
    end.

End Server.

End Storage.

(** ** llm/model/claude/v3/converters.py: messages and attachments *)

Module ClaudeMessages.
Import Message.
Local Open Scope string_scope.

Definition IMAGE_MEDIA_TYPES : list string :=
  ["image/png"; "image/jpeg"; "image/gif"; "image/webp"].

Definition FILE_EXTENSIONS : list string :=
  ["png"; "jpeg"; "jpg"; "gif"; "webp"].

Definition double_quote : string := String (ascii_of_nat 34) EmptyString.

Definition get_usage_message (supported_exts : list string) : string :=
  Text.strip
    (Text.newline
       ++ "The application answers queries about attached images."
       ++ Text.newline
       ++ "Attach images and ask questions about them in the same message."
       ++ Text.newline ++ Text.newline
       ++ "Supported image types: " ++ String.concat ", " supported_exts ++ "."
       ++ Text.newline ++ Text.newline
       ++ "Examples of queries:" ++ Text.newline
       ++ "- " ++ double_quote ++ "Describe this picture" ++ double_quote
       ++ " for one image," ++ Text.newline
       ++ "- " ++ double_quote
       ++ "What are in these images? Is there any difference between them?"
       ++ double_quote ++ " for multiple images." ++ Text.newline).

(** A download the conversion asks for: a direct fetch of the URL, or
    [FileStorage.download_file_as_base64] of the given storage. *)
Inductive Download : Type :=
| DirectDownload (url : string)
| StorageDownload (storage : Storage.FileStorage) (dial_path : string).

(** What the conversion raises: the exceptions of the first part,
    [UserError(message, usage_message)] of [llm/errors.py], the exception of
    a failed download and [json.JSONDecodeError]. *)
Inductive Failure : Type :=
| Adapter (e : Error)
| UserError (message usage_message : string)
| DownloadFailed (download : Download)
| JSONDecodeError (document : string).

(** A computation that may download and may raise: the downloads it asked
    for, in order, and its outcome. *)
Definition IO (A : Type) : Type := (list Download * (A + Failure))%type.

Definition ret {A : Type} (a : A) : IO A := ([], inl a).

Definition throw {A : Type} (e : Failure) : IO A := ([], inr e).

Definition bind {A B : Type} (m : IO A) (k : A -> IO B) : IO B :=
  match m with
  | (asked, inl a) => let (asked', r) := k a in ((asked ++ asked')%list, r)
  | (asked, inr e) => (asked, inr e)
  end.

Notation "x <- m ;; k" := (bind m (fun x => k))
  (at level 61, m at next level, right associativity).

(** A loop that appends [f x] for each [x], stopping at the first raise. *)
Fixpoint for_each {A B : Type} (f : A -> IO B) (l : list A) : IO (list B) :=
  match l with
  | [] => ret []
  | x :: rest => y <- f x ;; ys <- for_each f rest ;; ret (y :: ys)
  end.

(** Python's truth value of an [Optional[str]]. *)
Definition truthy (s : option string) : bool :=
  match s with
  | Some text => negb (text =? "")
  | None => false
  end.

(** [anthropic.types] content blocks; the constant [type] fields are the
    constructors. *)
Record TextBlockParam : Type := mkTextBlockParam { text : string }.

Record ImageBlockParam : Type := mkImageBlockParam {
  source_data : string;
  source_media_type : string
}.

Record ToolResultBlockParam : Type := mkToolResultBlockParam {
  tool_use_id : string;
  result_content : list TextBlockParam
}.

Definition _validate_media_type (media_type : string) : IO string :=
  if existsb (String.eqb media_type) IMAGE_MEDIA_TYPES
  then ret media_type
  else throw (UserError ("Unsupported media type: " ++ media_type)
                (get_usage_message FILE_EXTENSIONS)).

Definition _create_image_block (media_type data : string) : ImageBlockParam :=
  mkImageBlockParam data media_type.

Definition _to_claude_tool_result (id content : string)
    : ToolResultBlockParam :=
  mkToolResultBlockParam id [mkTextBlockParam content].

Section Conversion.

(** Parsed JSON values, [json.loads] ([None]: it raises),
    [mimetypes.guess_type(url)[0]] and the network ([None]: the download
    raises) are not the adapter's. *)
Variable json : Type.
Variable json_loads : string -> option json.
Variable guess_type : string -> option string.
Variable fetch : Download -> option string.

Record ToolUseBlockParam : Type := mkToolUseBlockParam {
  use_id : string;
  use_name : string;
  use_input : json
}.

Inductive ContentBlock : Type :=
| BlockText (block : TextBlockParam)
| BlockImage (block : ImageBlockParam)
| BlockToolUse (block : ToolUseBlockParam)
| BlockToolResult (block : ToolResultBlockParam).

Record MessageParam : Type := mkMessageParam {
  param_role : string;
  param_content : list ContentBlock
}.

Definition _download_data (url : string)
    (file_storage : option Storage.FileStorage) : IO string :=
  let download :=
    match file_storage with
    | None => DirectDownload url
    | Some storage => StorageDownload storage url
    end in
  ([download],
   match fetch download with
   | Some data => inl data
   | None => inr (DownloadFailed download)
   end).

Definition _to_claude_image (attachment : Attachment)
    (file_storage : option Storage.FileStorage) : IO ImageBlockParam :=
  if truthy (att_data attachment) then
    if negb (truthy (att_type attachment)) then
      throw (Adapter (ValidationError
                        "Attachment type is required for provided data"))
    else
      media_type <- _validate_media_type
                      (match att_type attachment with Some t => t | None => "" end) ;;
      ret (_create_image_block media_type
             (match att_data attachment with Some d => d | None => "" end))
  else if truthy (att_url attachment) then
    let url := match att_url attachment with Some u => u | None => "" end in
    let media_type :=
      if truthy (att_type attachment) then att_type attachment
      else guess_type url in
    if negb (truthy media_type) then
      throw (Adapter (ValidationError
                        ("Cannot guess attachment type for " ++ url)))
    else
      data <- _download_data url file_storage ;;
      media_type <- _validate_media_type
                      (match media_type with Some t => t | None => "" end) ;;
      ret (_create_image_block media_type data)
  else
    throw (Adapter (ValidationError "Attachment data or URL is required")).

(** The attachments of a regular message:
    [message.custom_content.attachments or []] under
    [if message.custom_content]. *)
Definition attachments_of (custom_content : option CustomContent)
    : list Attachment :=
  match custom_content with
  | Some cc =>
      match attachments cc with
      | Some l => l
      | None => []
      end
  | None => []
  end.

(** [_to_claude_message], on the content and custom content of an
    [AIRegularMessage] or a [HumanRegularMessage]. *)
Definition _to_claude_message (content : string)
    (custom_content : option CustomContent)
    (file_storage : option Storage.FileStorage) : IO (list ContentBlock) :=
  images <- for_each (fun a => _to_claude_image a file_storage)
              (attachments_of custom_content) ;;
  ret (map BlockImage images ++ [BlockText (mkTextBlockParam content)])%list.

Definition _to_claude_tool_call (call : ToolCall) : IO ToolUseBlockParam :=
  match json_loads (fc_arguments (tc_function call)) with
  | Some input =>
      ret (mkToolUseBlockParam (tc_id call) (fc_name (tc_function call)) input)
  | None => throw (JSONDecodeError (fc_arguments (tc_function call)))
  end.

(** One turn of the loop of [to_claude_messages]. *)
Definition to_claude_message_param (message : AnyMessage)
    (file_storage : option Storage.FileStorage) : IO MessageParam :=
  match message with
  | Base (HumanRegularMessage content custom_content) =>
      blocks <- _to_claude_message content custom_content file_storage ;;
      ret (mkMessageParam "user" blocks)
  | Base (AIRegularMessage content custom_content) =>
      blocks <- _to_claude_message content custom_content file_storage ;;
      ret (mkMessageParam "assistant" blocks)
  | Tool (AIToolCallMessage calls content) =>
      uses <- for_each _to_claude_tool_call calls ;;
      let blocks := map BlockToolUse uses in
      ret (mkMessageParam "assistant"
             match content with
             | Some c => BlockText (mkTextBlockParam c) :: blocks
             | None => blocks
             end)
  | Tool (HumanToolResultMessage id content) =>
      ret (mkMessageParam "user"
             [BlockToolResult (_to_claude_tool_result id content)])
  | Base (SystemMessage _) =>
      throw (Adapter (ValidationError
                        "System message is only allowed as the first message"))
  | Tool (HumanFunctionResultMessage _ _)
  | Tool (AIFunctionCallMessage _ _) => throw (Adapter AssertionError)
  end.

Definition to_claude_messages (messages : list AnyMessage)
    (file_storage : option Storage.FileStorage)
    : IO (option string * list MessageParam) :=
  match messages with
  | [] => ret (None, [])
  | Base (SystemMessage content) :: rest =>
      claude_messages <-
        for_each (fun m => to_claude_message_param m file_storage) rest ;;
      ret (Some content, claude_messages)
  | _ =>
      claude_messages <-
        for_each (fun m => to_claude_message_param m file_storage) messages ;;
      ret (None, claude_messages)
  end.

(** The role of the message a conversation message becomes. *)
Definition claude_role (message : AnyMessage) : string :=
  match message with
  | Base (AIRegularMessage _ _)
  | Tool (AIToolCallMessage _ _)
  | Tool (AIFunctionCallMessage _ _) => "assistant"
  | _ => "user"
  end.

Definition is_system (message : AnyMessage) : bool :=
  match message with
  | Base (SystemMessage _) => true
  | _ => false
  end.

End Conversion.

End ClaudeMessages.

(** * Properties *)

(** ** The message parser ([llm/message.py]) *)

Section Parsing.
Import Message.

(** What a parsed variant carries was taken from the wire message as it
    stood: serialising the variant back gives the same role and content,
    and every other field it sets is the wire message's. *)
Definition taken_verbatim (m : AnyMessage) (msg : WireMessage) : Prop :=
  let back := to_message m in
  role back = role msg
  /\ content back = content msg
  /\ (custom_content back = None \/ custom_content back = custom_content msg)
  /\ (name back = None \/ name back = name msg)
  /\ (tool_calls back = None \/ tool_calls back = tool_calls msg)
  /\ (tool_call_id back = None \/ tool_call_id back = tool_call_id msg)
  /\ (function_call back = None \/ function_call back = function_call msg).

Lemma parse_assistant_verbatim (msg : WireMessage) (m : AnyMessage) :
  role msg = ASSISTANT ->
  _parse_assistant_message (content msg) (function_call msg)
    (tool_calls msg) (custom_content msg) = Ok m ->
  taken_verbatim m msg.
Proof.
  intros Hrole. unfold _parse_assistant_message, taken_verbatim.
  destruct (content msg) as [c|] eqn:Hc;
    destruct (function_call msg) as [f|] eqn:Hf;
    destruct (tool_calls msg) as [t|] eqn:Ht;
    intros H; inversion H; subst; cbn; rewrite ?Hrole; intuition congruence.
Qed.

Lemma parse_dial_message_verbatim (msg : WireMessage) (m : AnyMessage) :
  parse_dial_message msg = Ok m -> taken_verbatim m msg.
Proof.
  unfold parse_dial_message.
  destruct (role msg) eqn:Hrole.
  - destruct (content msg) eqn:Hc; intros H; inversion H; subst.
    unfold taken_verbatim; cbn. rewrite Hrole. intuition.
  - destruct (content msg) eqn:Hc; intros H; inversion H; subst.
    unfold taken_verbatim; cbn. rewrite Hrole. intuition.
  - apply parse_assistant_verbatim; assumption.
  - destruct (content msg) eqn:Hc; destruct (name msg) eqn:Hn;
      intros H; inversion H; subst.
    unfold taken_verbatim; cbn. rewrite Hrole. intuition.
  - destruct (content msg) eqn:Hc; destruct (tool_call_id msg) eqn:Hn;
      intros H; inversion H; subst.
    unfold taken_verbatim; cbn. rewrite Hrole. intuition.
Qed.

Lemma parse_dial_message_outcome (msg : WireMessage) :
  (exists m, parse_dial_message msg = Ok m)
  \/ (exists text, parse_dial_message msg = Raise (ValidationError text)).
Proof.
  unfold parse_dial_message, _parse_assistant_message.
  destruct (role msg); destruct (content msg); destruct (name msg);
    destruct (tool_call_id msg); destruct (function_call msg);
    destruct (tool_calls msg); eauto.
Qed.

(** C9, read with "empty" as the empty string: a system message whose
    content is the empty string is parsed, not rejected, and so is a user
    message; the guards test [content is not None] only. *)
Lemma parse_dial_message_accepts_empty_string :
  parse_dial_message
    (mkWireMessage SYSTEM (Some "") None None None None None)
  = Ok (Base (SystemMessage ""))
  /\ parse_dial_message
       (mkWireMessage USER (Some "") None None None None None)
     = Ok (Base (HumanRegularMessage "" None)).
Proof. split; reflexivity. Qed.

(** C9 (amended): for every wire message [parse_dial_message] either
    returns one variant, built from the wire message's own role, content and
    fields, or raises a validation error.  An assistant message that sets
    both a function call and tool calls fails; a system or user message
    whose content is absent ([None]) fails, while any present content, the
    empty string included, is accepted; a tool-result message without its
    id and a function-result message without its name fail. *)
Theorem parse_dial_message_total_or_validation_error :
  (forall msg,
      (exists m, parse_dial_message msg = Ok m /\ taken_verbatim m msg)
      \/ (exists text, parse_dial_message msg = Raise (ValidationError text)))
  /\ (forall msg call calls,
         role msg = ASSISTANT ->
         function_call msg = Some call ->
         tool_calls msg = Some calls ->
         parse_dial_message msg
         = Raise (ValidationError "Unknown type of assistant message"))
  /\ (forall msg,
         role msg = SYSTEM \/ role msg = USER ->
         content msg = None ->
         parse_dial_message msg
         = Raise (ValidationError "Unknown message type or invalid message"))
  /\ (forall msg c,
         content msg = Some c ->
         (role msg = SYSTEM ->
          parse_dial_message msg = Ok (Base (SystemMessage c)))
         /\ (role msg = USER ->
             parse_dial_message msg
             = Ok (Base (HumanRegularMessage c (custom_content msg)))))
  /\ (forall msg,
         role msg = TOOL ->
         tool_call_id msg = None ->
         parse_dial_message msg
         = Raise (ValidationError "Unknown message type or invalid message"))
  /\ (forall msg,
         role msg = FUNCTION ->
         name msg = None ->
         parse_dial_message msg
         = Raise (ValidationError "Unknown message type or invalid message")).
Proof.
  repeat split.
  - intros msg. destruct (parse_dial_message_outcome msg) as [[m Hm]|Herr].
    + left. exists m. split; [exact Hm|].
      apply parse_dial_message_verbatim; exact Hm.
    + right; exact Herr.
  - intros msg call calls Hr Hf Ht. unfold parse_dial_message.
    rewrite Hr, Hf, Ht. destruct (content msg); reflexivity.
  - intros msg [Hr|Hr] Hc; unfold parse_dial_message; rewrite Hr, Hc;
      reflexivity.
  - intros Hr. unfold parse_dial_message. rewrite Hr, H. reflexivity.
  - intros Hr. unfold parse_dial_message. rewrite Hr, H. reflexivity.
  - intros msg Hr Hi. unfold parse_dial_message. rewrite Hr, Hi.
    destruct (content msg); reflexivity.
  - intros msg Hr Hn. unfold parse_dial_message. rewrite Hr, Hn.
    destruct (content msg); reflexivity.
Qed.

Lemma parse_dial_message_total_or_validation_error_witness :
  parse_dial_message
    (mkWireMessage ASSISTANT (Some "hi") None None
       (Some [mkToolCall None "id1" "function" (mkFunctionCall "f" "{}")])
       None (Some (mkFunctionCall "f" "{}")))
  = Raise (ValidationError "Unknown type of assistant message")
  /\ parse_dial_message (mkWireMessage USER None None None None None None)
     = Raise (ValidationError "Unknown message type or invalid message")
  /\ parse_dial_message
       (mkWireMessage TOOL (Some "42") None None None None None)
     = Raise (ValidationError "Unknown message type or invalid message").
Proof.
  destruct parse_dial_message_total_or_validation_error
    as (_ & Hboth & Habsent & _ & Htool & _).
  split; [|split].
  - eapply Hboth; reflexivity.
  - apply Habsent; [right|]; reflexivity.
  - apply Htool; reflexivity.
Defined.

(** X1: serialising a variant with [to_message] and parsing the wire
    message back gives the variant again. *)
Theorem parse_dial_message_to_message (m : AnyMessage) :
  parse_dial_message (to_message m) = Ok m.
Proof.
  destruct m as [[c|c cc|c cc]|[i c|n c|calls [c|]|call [c|]]]; reflexivity.
Qed.

End Parsing.


(** ** The tool/function translator ([llm/model/claude/v3/tools.py]) *)

Section ToolsProperties.
Import Message Tools.

(** C6: under mode [FUNCTIONS], [process_with_tools] turns an
    [AIFunctionCallMessage] into an [AIToolCallMessage] with exactly one
    [ToolCall], whose id is the function's name and whose payload is the
    function call, the optional content kept; it turns a
    [HumanFunctionResultMessage] into a [HumanToolResultMessage] whose id is
    the function's name, the content kept; and [function_message_of] reads
    either result back into the original message. *)
Theorem process_with_tools_functions_rewrite :
  (forall (call : FunctionCall) (content : option string),
      let rewritten :=
        Tool (AIToolCallMessage
                [mkToolCall None (fc_name call) "function" call] content) in
      process_with_tools (Tool (AIFunctionCallMessage call content))
        (Some FUNCTIONS) = Ok rewritten
      /\ function_message_of rewritten
         = Some (Tool (AIFunctionCallMessage call content)))
  /\ (forall (name content : string),
         let rewritten := Tool (HumanToolResultMessage name content) in
         process_with_tools (Tool (HumanFunctionResultMessage name content))
           (Some FUNCTIONS) = Ok rewritten
         /\ function_message_of rewritten
            = Some (Tool (HumanFunctionResultMessage name content))).
Proof.
  split; intros; split; reflexivity.
Qed.

(** X4: the rewrite under [FUNCTIONS] loses nothing: two function-style
    messages with the same image are the same message. *)
Theorem process_with_tools_functions_injective (m1 m2 m' : AnyMessage) :
  is_function_message m1 = true ->
  is_function_message m2 = true ->
  process_with_tools m1 (Some FUNCTIONS) = Ok m' ->
  process_with_tools m2 (Some FUNCTIONS) = Ok m' ->
  m1 = m2.
Proof.
  destruct m1 as [b1|[]]; try discriminate;
    destruct m2 as [b2|[]]; try discriminate; cbn;
    intros _ _ H1 H2; inversion H1; subst; inversion H2; subst; reflexivity.
Qed.

(** X2: [process_with_tools] raises a validation error exactly when the
    message's calling convention conflicts with the mode. *)
Theorem process_with_tools_validation_iff_conflict
    (m : AnyMessage) (mode : option ToolsMode) :
  is_validation_error (process_with_tools m mode) = conflicts m mode.
Proof.
  destruct mode as [[]|]; destruct m as [[]|[]]; reflexivity.
Qed.

(** X5: with no mode and with mode [TOOLS], a message that does not
    conflict is returned unchanged; with mode [FUNCTIONS] a user message
    is. *)
Theorem process_with_tools_pass_through
    (m : AnyMessage) (mode : option ToolsMode) :
  conflicts m mode = false ->
  mode <> Some FUNCTIONS \/ (exists c cc, m = Base (HumanRegularMessage c cc)) ->
  process_with_tools m mode = Ok m.
Proof.
  intros Hc [Hm|(c & cc & ->)].
  - destruct mode as [[]|]; [|congruence|];
      destruct m as [[]|[]]; try discriminate; reflexivity.
  - destruct mode as [[]|]; reflexivity.
Qed.

(** X3: a message whose calling convention conflicts with the mode is
    rejected with the text of that mode's conflict. *)
Theorem process_with_tools_conflict_text
    (m : AnyMessage) (mode : option ToolsMode) :
  conflicts m mode = true ->
  process_with_tools m mode
  = Raise (ValidationError
             match mode with
             | None => no_config_error
             | Some TOOLS => functions_with_tools_error
             | Some FUNCTIONS => tools_with_functions_error
             end).
Proof.
  destruct mode as [[]|]; destruct m as [[]|[]]; try discriminate; reflexivity.
Qed.

(** C7, where the code departs from it: under mode [FUNCTIONS] a plain
    assistant message, and a system message, are not returned.  They fall to
    the last case of the match and the call raises [ValueError], though the
    message conflicts with no mode and the other two modes return it
    unchanged. *)
Theorem process_with_tools_functions_drops_plain_messages :
  let m := Base (AIRegularMessage "It is sunny." None) in
  conflicts m (Some FUNCTIONS) = false
  /\ process_with_tools m None = Ok m
  /\ process_with_tools m (Some TOOLS) = Ok m
  /\ process_with_tools m (Some FUNCTIONS)
     = Raise (ValueError
                "Unknown message type <class 'aidial_adapter_bedrock.llm.message.AIRegularMessage'>")
  /\ process_with_tools (Base (SystemMessage "Be brief.")) (Some FUNCTIONS)
     = Raise (ValueError
                "Unknown message type <class 'aidial_adapter_bedrock.llm.message.SystemMessage'>").
Proof.
  cbv zeta. repeat split; reflexivity.
Qed.

Lemma process_with_tools_conflict_text_witness :
  process_with_tools
    (Tool (AIToolCallMessage
             [mkToolCall None "call_1" "function" (mkFunctionCall "f" "{}")]
             None))
    (Some FUNCTIONS)
  = Raise (ValidationError
             "You cannot use tools messages with functions config.").
Proof.
  apply (process_with_tools_conflict_text
           (Tool (AIToolCallMessage
                    [mkToolCall None "call_1" "function"
                       (mkFunctionCall "f" "{}")] None))
           (Some FUNCTIONS)).
  reflexivity.
Defined.

Lemma process_with_tools_functions_injective_witness :
  Tool (HumanFunctionResultMessage "f" "42")
  = Tool (HumanFunctionResultMessage "f" "42").
Proof.
  apply (process_with_tools_functions_injective
           (Tool (HumanFunctionResultMessage "f" "42"))
           (Tool (HumanFunctionResultMessage "f" "42"))
           (Tool (HumanToolResultMessage "f" "42")));
    reflexivity.
Defined.

Lemma process_with_tools_pass_through_witness :
  process_with_tools (Tool (HumanToolResultMessage "call_1" "42")) (Some TOOLS)
  = Ok (Tool (HumanToolResultMessage "call_1" "42")).
Proof.
  apply process_with_tools_pass_through.
  - reflexivity.
  - left. discriminate.
Defined.

End ToolsProperties.

(** ** The finish-reason mapper ([llm/model/claude/v3/converters.py]) *)

Section FinishReasons.
Import Converters.

(** C8: the backend reason ["tool_use"] raises a validation error when no
    tools mode is active, gives [TOOL_CALLS] under [TOOLS] and
    [FUNCTION_CALL] under [FUNCTIONS]; ["end_turn"] and ["stop_sequence"]
    give [STOP] and ["max_tokens"] gives [LENGTH], whatever the mode. *)
Theorem to_dial_finish_reason_table :
  to_dial_finish_reason (Some "tool_use") None
  = Raise (ValidationError
             "A model has called a tool, but no tools were given to the model in the first place.")
  /\ to_dial_finish_reason (Some "tool_use") (Some TOOLS) = Ok TOOL_CALLS
  /\ to_dial_finish_reason (Some "tool_use") (Some FUNCTIONS) = Ok FUNCTION_CALL
  /\ (forall mode, to_dial_finish_reason (Some "end_turn") mode = Ok STOP)
  /\ (forall mode, to_dial_finish_reason (Some "stop_sequence") mode = Ok STOP)
  /\ (forall mode, to_dial_finish_reason (Some "max_tokens") mode = Ok LENGTH).
Proof.
  repeat split; reflexivity.
Qed.

(** C10: an absent backend finish reason gives [STOP] under every tools
    mode, present or not, and raises nothing; a reason that is present and is
    none of the four known ones raises [AssertionError] ([assert_never])
    under every mode. *)
Theorem to_dial_finish_reason_absent :
  (forall mode : option ToolsMode, to_dial_finish_reason None mode = Ok STOP)
  /\ (forall (reason : string) (mode : option ToolsMode),
         ~ In reason claude_finish_reasons ->
         to_dial_finish_reason (Some reason) mode = Raise AssertionError).
Proof.
  split; [reflexivity|].
  intros reason mode Hnot. unfold to_dial_finish_reason.
  destruct (String.eqb_spec reason "end_turn") as [->|_];
    [exfalso; apply Hnot; cbn; tauto|].
  destruct (String.eqb_spec reason "max_tokens") as [->|_];
    [exfalso; apply Hnot; cbn; tauto|].
  destruct (String.eqb_spec reason "stop_sequence") as [->|_];
    [exfalso; apply Hnot; cbn; tauto|].
  destruct (String.eqb_spec reason "tool_use") as [->|_];
    [exfalso; apply Hnot; cbn; tauto|].
  reflexivity.
Qed.

Lemma to_dial_finish_reason_absent_witness :
  to_dial_finish_reason None (Some FUNCTIONS) = Ok STOP
  /\ to_dial_finish_reason (Some "content_filtered") (Some TOOLS)
     = Raise AssertionError.
Proof.
  split.
  - apply (proj1 to_dial_finish_reason_absent).
  - apply (proj2 to_dial_finish_reason_absent).
    cbn. intros [H|[H|[H|[H|[]]]]]; discriminate H.
Defined.

End FinishReasons.


(** ** The prompt truncator *)

Section TruncateProperties.
Import TruncatePrompt.

Variable T : Type.
Variable tokenize_messages : list T -> Z.
Variable keep_message : list T -> nat -> bool.
Variable partition_messages : list T -> list (list nat).

Local Abbreviation tokens := (token_count T tokenize_messages).
Local Abbreviation mandatory := (mandatory_indices T keep_message).
Local Abbreviation truncate :=
  (truncate_prompt T tokenize_messages keep_message partition_messages).

Lemma mem_In (i : nat) (indices : list nat) :
  mem i indices = true <-> In i indices.
Proof.
  unfold mem. rewrite existsb_exists. split.
  - intros (j & Hj & Heq). apply Nat.eqb_eq in Heq. subst. exact Hj.
  - intros Hi. exists i. split; [exact Hi | apply Nat.eqb_refl].
Qed.

Lemma In_indices_of (n i : nat) (units : list (list nat)) :
  In i (indices_of n units)
  <-> i < n /\ exists unit, In unit units /\ In i unit.
Proof.
  unfold indices_of. rewrite filter_In, in_seq, existsb_exists.
  split.
  - intros (Hlt & unit & Hu & Hm). split; [lia|].
    exists unit. split; [exact Hu | apply mem_In; exact Hm].
  - intros (Hlt & unit & Hu & Hi). split; [lia|].
    exists unit. split; [exact Hu | apply mem_In; exact Hi].
Qed.

Lemma StronglySorted_seq (start len : nat) :
  StronglySorted lt (seq start len).
Proof.
  revert start. induction len as [|len IH]; intros start; cbn.
  - constructor.
  - constructor; [apply IH|].
    apply Forall_forall. intros j Hj. apply in_seq in Hj. lia.
Qed.

Lemma StronglySorted_filter (f : nat -> bool) (l : list nat) :
  StronglySorted lt l -> StronglySorted lt (filter f l).
Proof.
  induction 1 as [|a l Hs IH Hall]; cbn.
  - constructor.
  - destruct (f a); [|exact IH].
    constructor; [exact IH|].
    apply Forall_forall. intros j Hj. apply filter_In in Hj.
    rewrite Forall_forall in Hall. apply Hall. tauto.
Qed.

Lemma indices_of_ascending (n : nat) (units : list (list nat)) :
  StronglySorted lt (indices_of n units).
Proof.
  apply StronglySorted_filter, StronglySorted_seq.
Qed.

(** The walk stops after some number [k] of units: the excluded units are
    the rest, every shorter run of most recent units fits, and the next unit
    would not. *)
Lemma walk_stops (messages : list T) (limit : Z) (units : list (list nat)) :
  forall kept : list nat,
    (tokens messages kept <= limit)%Z ->
    exists k,
      k <= List.length units
      /\ walk T tokenize_messages messages limit kept units = skipn k units
      /\ (forall j, j <= k ->
            (tokens messages (kept ++ List.concat (firstn j units))
             <= limit)%Z)
      /\ (k < List.length units ->
            (tokens messages (kept ++ List.concat (firstn (S k) units))
             > limit)%Z).
Proof.
  induction units as [|unit older IH]; intros kept Hkept.
  - exists 0. cbn. repeat split; try lia.
    intros j Hj. rewrite firstn_nil. cbn. rewrite app_nil_r. exact Hkept.
  - cbn [walk].
    destruct (Z.gtb_spec (tokens messages (kept ++ unit)) limit) as [Hover|Hfit].
    + exists 0. cbn [skipn List.length]. repeat split; try lia.
      * intros j Hj. replace j with 0 by lia. cbn.
        rewrite app_nil_r. exact Hkept.
      * intros _. cbn. rewrite app_nil_r. lia.
    + destruct (IH (kept ++ unit)%list) as (k & Hk & Hwalk & Hfits & Hnext);
        [lia|].
      exists (S k). cbn [skipn List.length]. repeat split; try lia.
      * exact Hwalk.
      * intros [|j] Hj.
        -- cbn. rewrite app_nil_r. exact Hkept.
        -- cbn [firstn List.concat]. rewrite app_assoc.
           apply Hfits. lia.
      * intros Hlt. cbn [firstn List.concat]. rewrite app_assoc.
        apply Hnext. lia.
Qed.

(** What the walk excludes is part of what it was given. *)
Lemma walk_incl (messages : list T) (limit : Z) (units : list (list nat)) :
  forall kept unit,
    In unit (walk T tokenize_messages messages limit kept units) ->
    In unit units.
Proof.
  induction units as [|u older IH]; intros kept unit; cbn [walk].
  - intros [].
  - destruct (tokens messages (kept ++ u) >? limit)%Z.
    + intros H; exact H.
    + intros H. right. eapply IH; exact H.
Qed.

(** A larger budget excludes no unit that a smaller one includes. *)
Lemma walk_monotone (messages : list T) (limit1 limit2 : Z)
    (units : list (list nat)) :
  (limit1 <= limit2)%Z ->
  forall kept unit,
    In unit (walk T tokenize_messages messages limit2 kept units) ->
    In unit (walk T tokenize_messages messages limit1 kept units).
Proof.
  intros Hle. induction units as [|u older IH]; intros kept unit;
    cbn [walk]; [intros []|].
  destruct (Z.gtb_spec (tokens messages (kept ++ u)) limit1) as [H1|H1];
    destruct (Z.gtb_spec (tokens messages (kept ++ u)) limit2) as [H2|H2];
    try lia.
  - intros H; exact H.
  - intros H. right. eapply walk_incl; exact H.
  - apply IH.
Qed.

Lemma no_repeat_app_disjoint (a b : list nat) (i : nat) :
  no_repeat (a ++ b) = true -> In i a -> In i b -> False.
Proof.
  induction a as [|x a IH]; cbn; [intros _ []|].
  intros H [->|Hi] Hb; apply andb_prop in H; destruct H as [Hx Hrest].
  - apply negb_true_iff in Hx.
    assert (mem i (a ++ b) = true) as Hm
        by (apply mem_In, in_or_app; right; exact Hb).
    congruence.
  - exact (IH Hrest Hi Hb).
Qed.

(** [truncate_prompt] fails exactly when the mandatory messages alone exceed
    the budget. *)
Lemma truncate_prompt_outcome (messages : list T)
    (model_limit : option Z) (user_limit : Z) :
  let limit := effective_budget model_limit user_limit in
  let count := tokens messages (mandatory messages) in
  truncate messages model_limit user_limit
  = if (count >? limit)%Z
    then Failed (mkTruncatePromptError count limit)
    else Discarded
           (indices_of (List.length messages)
              (walk T tokenize_messages messages limit (mandatory messages)
                 (rev (partition_messages messages)))).
Proof. reflexivity. Qed.

End TruncateProperties.


Section TruncateClaims.
Import TruncatePrompt TestLlamaChat.

(** C1: whenever the mandatory messages fit the effective budget,
    [truncate_prompt] returns a discard list, in ascending order, that is
    the set of indices of the excluded units of a walk from the most recent
    unit to the oldest: for some [k], the [k] most recent units are
    included, every run of [j <= k] most recent units keeps mandatory plus
    included within budget, the next unit (if any) would exceed it, and the
    discarded indices are those of the remaining, older units.  When the
    partitioner keeps its contract (disjoint units of non-mandatory
    messages), no unit is split (its messages are all discarded or all
    kept) and no mandatory index is discarded.  On the conversation
    [sys, user, ai, user, ai, user] of one-word messages, budget 4 gives
    exactly [1; 2]. *)
Theorem truncate_prompt_greedy_walk :
  (forall (T : Type) (tokenize_messages : list T -> Z)
          (keep_message : list T -> nat -> bool)
          (partition_messages : list T -> list (list nat))
          (messages : list T) (model_limit : option Z) (user_limit : Z),
      let limit := effective_budget model_limit user_limit in
      let mandatory := mandatory_indices T keep_message messages in
      let recent := rev (partition_messages messages) in
      let total j :=
        token_count T tokenize_messages messages
          (mandatory ++ List.concat (firstn j recent)) in
      (token_count T tokenize_messages messages mandatory <= limit)%Z ->
      partition_ok T keep_message partition_messages messages = true ->
      exists (k : nat) (discard : list nat),
        truncate_prompt T tokenize_messages keep_message partition_messages
          messages model_limit user_limit = Discarded discard
        /\ k <= List.length recent
        /\ (forall j, j <= k -> (total j <= limit)%Z)
        /\ (k < List.length recent -> (total (S k) > limit)%Z)
        /\ discard = indices_of (List.length messages) (skipn k recent)
        /\ StronglySorted lt discard
        /\ (forall unit,
               In unit (partition_messages messages) ->
               (forall i, In i unit -> i < List.length messages ->
                          In i discard)
               \/ (forall i, In i unit -> ~ In i discard))
        /\ (forall i,
               In i discard ->
               i < List.length messages /\ keep_message messages i = false))
  /\ truncate_prompt_by_words turns_sys 4 = Discarded [1; 2].
Proof.
  split; [|reflexivity].
  intros T tokenize_messages keep_message partition_messages messages
    model_limit user_limit limit mandatory recent total Hfit Hok.
  destruct (walk_stops T tokenize_messages messages limit recent mandatory Hfit)
    as (k & Hk & Hwalk & Hfits & Hnext).
  exists k, (indices_of (List.length messages) (skipn k recent)).
  apply andb_prop in Hok. destruct Hok as [Hnonmand Hdisjoint].
  rewrite forallb_forall in Hnonmand.
  split; [|split; [|split; [|split; [|split; [|split; [|split]]]]]].
  - rewrite truncate_prompt_outcome. cbv zeta. fold limit mandatory.
    destruct (Z.gtb_spec (token_count T tokenize_messages messages mandatory)
                limit) as [Hover|_]; [lia|].
    fold recent. rewrite Hwalk. reflexivity.
  - exact Hk.
  - exact Hfits.
  - exact Hnext.
  - reflexivity.
  - apply indices_of_ascending.
  - intros unit Hunit.
    assert (In unit recent) as Hrecent by (apply in_rev in Hunit; exact Hunit).
    rewrite <- (firstn_skipn k recent) in Hrecent.
    apply in_app_or in Hrecent. destruct Hrecent as [Hincluded|Hexcluded].
    + right. intros i Hi Hdisc.
      apply In_indices_of in Hdisc. destruct Hdisc as (_ & unit' & Hu' & Hi').
      assert (partition_messages messages
              = (rev (skipn k recent) ++ rev (firstn k recent))%list) as Hsplit.
      { rewrite <- rev_app_distr, firstn_skipn. unfold recent.
        symmetry. apply rev_involutive. }
      rewrite Hsplit, concat_app in Hdisjoint.
      apply (no_repeat_app_disjoint _ _ i Hdisjoint).
      * apply in_concat. exists unit'. split; [|exact Hi'].
        apply in_rev in Hu'. exact Hu'.
      * apply in_concat. exists unit. split; [|exact Hi].
        apply in_rev in Hincluded. exact Hincluded.
    + left. intros i Hi Hlt. apply In_indices_of. split; [exact Hlt|].
      exists unit. split; [exact Hexcluded | exact Hi].
  - intros i Hdisc.
    apply In_indices_of in Hdisc. destruct Hdisc as (Hlt & unit & Hu & Hi).
    split; [exact Hlt|].
    apply negb_true_iff, Hnonmand, in_concat.
    exists unit. split; [|exact Hi].
    apply in_rev. fold recent.
    rewrite <- (firstn_skipn k recent). apply in_or_app. right. exact Hu.
Qed.

Lemma truncate_prompt_greedy_walk_witness :
  exists (k : nat) (discard : list nat),
    truncate_prompt_by_words turns_sys 4 = Discarded discard
    /\ k <= 2
    /\ StronglySorted lt discard
    /\ (forall i,
           In i discard ->
           i < 6 /\ ChatModel.default_keep_message turns_sys i = false).
Proof.
  destruct (proj1 truncate_prompt_greedy_walk Message.BaseMessage
              _tokenize_by_words ChatModel.default_keep_message
              LlamaChat.llama_partitioner turns_sys None 4%Z)
    as (k & discard & Hrun & Hk & _ & _ & _ & Hsorted & _ & Hkeep).
  - vm_compute. discriminate.
  - vm_compute. reflexivity.
  - exists k, discard. repeat split.
    + exact Hrun.
    + exact Hk.
    + exact Hsorted.
    + apply (Hkeep i H).
    + apply (Hkeep i H).
Defined.




(** C3: [truncate_prompt] is monotonic in the budget.  For one message
    sequence, tokenizer, mandatory predicate and partitioner, and two pairs
    of limits whose effective budgets satisfy [b1 <= b2], if both runs
    succeed then every index discarded at [b2] is discarded at [b1]. *)
Theorem truncate_prompt_monotone_in_budget
    (T : Type) (tokenize_messages : list T -> Z)
    (keep_message : list T -> nat -> bool)
    (partition_messages : list T -> list (list nat))
    (messages : list T)
    (model_limit1 model_limit2 : option Z) (user_limit1 user_limit2 : Z)
    (discard1 discard2 : list nat) :
  (effective_budget model_limit1 user_limit1
   <= effective_budget model_limit2 user_limit2)%Z ->
  truncate_prompt T tokenize_messages keep_message partition_messages
    messages model_limit1 user_limit1 = Discarded discard1 ->
  truncate_prompt T tokenize_messages keep_message partition_messages
    messages model_limit2 user_limit2 = Discarded discard2 ->
  incl discard2 discard1.
Proof.
  intros Hle. rewrite !truncate_prompt_outcome. cbv zeta.
  set (b1 := effective_budget model_limit1 user_limit1) in *.
  set (b2 := effective_budget model_limit2 user_limit2) in *.
  destruct (_ >? b1)%Z; [discriminate|].
  destruct (_ >? b2)%Z; [discriminate|].
  intros H1 H2. inversion H1; subst discard1. inversion H2; subst discard2.
  intros i Hi. apply In_indices_of in Hi. apply In_indices_of.
  destruct Hi as (Hlt & unit & Hunit & Hi). split; [exact Hlt|].
  exists unit. split; [|exact Hi].
  eapply walk_monotone; [exact Hle | exact Hunit].
Qed.

Lemma truncate_prompt_monotone_in_budget_witness :
  truncate_prompt_by_words turns_sys 2 = Discarded [1; 2; 3; 4]
  /\ truncate_prompt_by_words turns_sys 4 = Discarded [1; 2]
  /\ incl [1; 2] [1; 2; 3; 4].
Proof.
  split; [reflexivity | split; [reflexivity|]].
  apply (truncate_prompt_monotone_in_budget Message.BaseMessage
           _tokenize_by_words ChatModel.default_keep_message
           LlamaChat.llama_partitioner turns_sys None None 2%Z 4%Z).
  - vm_compute. discriminate.
  - reflexivity.
  - reflexivity.
Defined.

End TruncateClaims.


(** ** The Llama chat emulator *)

Section LlamaProperties.
Import Message Text LlamaChat TestLlamaChat.
Local Open Scope string_scope.

Lemma append_empty_r (s : string) : s ++ "" = s.
Proof.
  induction s as [|c s IH]; cbn; [reflexivity | rewrite IH; reflexivity].
Qed.

Lemma append_assoc (a b c : string) : (a ++ b) ++ c = a ++ (b ++ c).
Proof.
  induction a as [|x a IH]; cbn; [reflexivity | rewrite IH; reflexivity].
Qed.

Lemma concat_empty_cons (x : string) (xs : list string) :
  String.concat "" (x :: xs) = x ++ String.concat "" xs.
Proof.
  destruct xs as [|y ys]; cbn; [rewrite append_empty_r|]; reflexivity.
Qed.

Ltac join_strings :=
  repeat (progress (rewrite ?concat_empty_cons, ?append_assoc;
                    cbn [append map fst snd String.concat])).

Lemma ends_on_user_cons (m : BaseMessage) (rest : list BaseMessage) :
  rest <> [] -> ends_on_user (m :: rest) = ends_on_user rest.
Proof.
  unfold ends_on_user. cbn [rev]. intros Hne.
  destruct (rev rest) as [|x xs] eqn:Hrev; [|reflexivity].
  exfalso. apply Hne.
  rewrite <- (rev_involutive rest), Hrev. reflexivity.
Qed.

Lemma ends_on_user_split_system (messages : list BaseMessage) :
  ends_on_user (snd (split_system messages)) = ends_on_user messages.
Proof.
  destruct messages as [|[c|c cc|c cc] rest]; try reflexivity.
  cbn [split_system snd]. destruct rest as [|m rest]; [reflexivity|].
  symmetry. apply ends_on_user_cons. discriminate.
Qed.

Lemma alternating_nonempty (rest : list BaseMessage) :
  alternating rest -> rest <> [].
Proof. intros H; inversion H; discriminate. Qed.

Lemma alternating_passes_checks (rest : list BaseMessage) :
  alternating rest ->
  ends_on_user rest = true /\ alternates true rest = true.
Proof.
  induction 1 as [h cc|h a cc cc' rest Halt [IHend IHalt]].
  - split; reflexivity.
  - split.
    + rewrite !ends_on_user_cons; [exact IHend | |discriminate].
      apply alternating_nonempty; exact Halt.
    + cbn. exact IHalt.
Qed.

Lemma non_alternating_fails_check (rest : list BaseMessage) :
  non_alternating rest -> alternates true rest = false.
Proof.
  intros H. destruct H as [a cc rest|before after h h' cc cc'
                           |before after a a' cc cc'].
  - reflexivity.
  - generalize true. induction before as [|m before IH]; intros expect.
    + destruct expect; reflexivity.
    + cbn. rewrite IH. apply andb_false_r.
  - generalize true. induction before as [|m before IH]; intros expect.
    + destruct expect; reflexivity.
    + cbn. rewrite IH. apply andb_false_r.
Qed.

(** The turns and the final query of an alternating sequence, joined, are
    its turn-by-turn text; [block] goes ahead of the first user turn. *)
Lemma joined_turns_text (rest : list BaseMessage) :
  alternating rest ->
  forall (block : string) (default : BaseMessage),
    match pair_turns rest with
    | (h, a) :: more =>
        String.concat ""
          (map (fun t => user_turn (fst t) ++ assistant_turn (snd t))
               ((block ++ h, a) :: more))
        ++ user_turn (content_of (last rest default))
    | [] =>
        user_turn (block ++ content_of (last rest default))
    end
    = turns_text block rest.
Proof.
  induction 1 as [h cc|h a cc cc' rest Halt IH]; intros block default.
  - reflexivity.
  - cbn [pair_turns content_of map fst snd]. rewrite concat_empty_cons.
    assert (last (HumanRegularMessage h cc :: AIRegularMessage a cc' :: rest)
              default = last rest default) as Hlast.
    { destruct rest as [|m rest']; [inversion Halt | reflexivity]. }
    rewrite Hlast.
    specialize (IH "" default).
    cbn [turns_text content_of].
    destruct rest as [|m rest']; [inversion Halt|].
    rewrite <- IH. clear IH.
    unfold user_turn, assistant_turn, BOS, B_INST, E_INST, EOS.
    destruct (pair_turns (m :: rest')) as [|[h2 a2] more] eqn:Hpairs;
      join_strings; reflexivity.
Qed.

Lemma create_chat_prompt_text (system : option string)
    (rest : list BaseMessage) (default : BaseMessage) :
  alternating rest ->
  create_chat_prompt
    (mkDialogue system (pair_turns rest) (content_of (last rest default)))
  = turns_text
      match system with Some s => system_block s | None => "" end
      rest.
Proof.
  intros Halt. unfold create_chat_prompt. cbn [LlamaChat.system].
  destruct system as [s|].
  - rewrite <- (joined_turns_text rest Halt (system_block s) default).
    unfold prepend_to_first_human_message. cbn [turns human LlamaChat.system].
    assert (B_SYS ++ s ++ E_SYS = system_block s) as Hblock.
    { unfold B_SYS, E_SYS, system_block. join_strings. reflexivity. }
    rewrite Hblock.
    destruct (pair_turns rest) as [|[h a] more]; cbn [turns human];
      reflexivity.
  - rewrite <- (joined_turns_text rest Halt "" default).
    cbn [turns human]. destruct (pair_turns rest) as [|[h a] more];
      reflexivity.
Qed.

Lemma first_failure_of_checks (order : CheckOrder) (rest : list BaseMessage) :
  first_failure order rest
  = match order, ends_on_user rest, alternates true rest with
    | _, true, true => None
    | LastMessageFirst, false, _ => Some (ValidationError last_message_error)
    | AlternationFirst, _, false => Some (ValidationError alternation_error)
    | LastMessageFirst, true, false =>
        Some (ValidationError alternation_error)
    | AlternationFirst, false, true =>
        Some (ValidationError last_message_error)
    end.
Proof.
  unfold first_failure, check_last, check_alternation.
  destruct order, (ends_on_user rest), (alternates true rest); reflexivity.
Qed.

Lemma display_unfold (order : CheckOrder) (messages : list BaseMessage) :
  display order messages
  = match first_failure order (snd (split_system messages)) with
    | Some e => Raise e
    | None =>
        Ok (create_chat_prompt
              (mkDialogue (fst (split_system messages))
                 (pair_turns (snd (split_system messages)))
                 (content_of
                    (last (snd (split_system messages))
                       (HumanRegularMessage "" None)))),
            [])
    end.
Proof.
  unfold display, validate_chat.
  destruct (split_system messages) as [system rest]. cbn [fst snd].
  destruct (first_failure order rest); reflexivity.
Qed.

Lemma display_alternating (order : CheckOrder) (system : option string)
    (messages rest : list BaseMessage) :
  split_system messages = (system, rest) ->
  alternating rest ->
  display order messages
  = Ok (turns_text
          match system with Some s => system_block s | None => "" end rest,
        []).
Proof.
  intros Hsplit Halt. rewrite display_unfold, Hsplit. cbn [fst snd].
  destruct (alternating_passes_checks rest Halt) as [Hend Halts].
  rewrite first_failure_of_checks, Hend, Halts.
  rewrite (create_chat_prompt_text system rest _ Halt).
  destruct order; reflexivity.
Qed.

Lemma turns_text_starts_with_marker (block : string)
    (rest : list BaseMessage) :
  alternating rest -> prefix "<s>" (turns_text block rest) = true.
Proof. intros H; inversion H; reflexivity. Qed.

(** C4, on the test that fixes the whitespace handling: the system
    message's content is embedded untrimmed, and the first user turn keeps
    its leading blanks behind the system block; trimming every content on
    its own would give another prompt. *)
Lemma llama_display_keeps_system_whitespace :
  let messages :=
    [sys " system message1 "; user "  human message1  ";
     ai "     ai message1     "; user "  human message2  "] in
  let expected :=
    "<s>[INST] <<SYS>>" ++ newline ++ " system message1 " ++ newline
      ++ "<</SYS>>" ++ newline ++ newline ++ "  human message1 [/INST]"
      ++ " ai message1 </s>"
      ++ "<s>[INST] human message2 [/INST]" in
  valid_chat messages
  /\ display LastMessageFirst messages = Ok (expected, [])
  /\ display AlternationFirst messages = Ok (expected, [])
  /\ prompt_text_each_trimmed messages <> expected.
Proof.
  cbv zeta. split; [|split; [|split]].
  - apply valid_with_system. apply alternating_turn, alternating_query.
  - reflexivity.
  - reflexivity.
  - vm_compute. discriminate.
Qed.

(** C4 (amended): for every structurally valid sequence (an optional
    leading system message, then strictly alternating user and assistant
    turns ending on a user message) the emulator succeeds with no stop
    sequences and the prompt [prompt_text]: every user turn is
    [<s>[INST] text [/INST]], every assistant turn is its trimmed content
    followed by [</s>], the system content goes, as it is, in a
    [<<SYS>> ... <</SYS>>] block ahead of the first user turn's own
    content, a user turn's text is trimmed after that block has been put in
    front, and the output starts with the sequence-start marker.
    [user("human message1")] gives ["<s>[INST] human message1 [/INST]"]
    and no stop sequences. *)
Theorem llama_display_valid :
  (forall (order : CheckOrder) (messages : list BaseMessage),
      valid_chat messages ->
      display order messages = Ok (prompt_text messages, [])
      /\ prefix "<s>" (prompt_text messages) = true)
  /\ (forall order : CheckOrder,
         display order [user "human message1"]
         = Ok ("<s>[INST] human message1 [/INST]", [])).
Proof.
  split; [|intros []; reflexivity].
  intros order messages Hvalid.
  destruct Hvalid as [rest Halt|s rest Halt].
  - assert (split_system rest = (None, rest)) as Hsplit
        by (inversion Halt; reflexivity).
    assert (prompt_text rest = turns_text "" rest) as Hprompt
        by (inversion Halt; reflexivity).
    rewrite Hprompt. split.
    + apply (display_alternating order None rest rest Hsplit Halt).
    + apply turns_text_starts_with_marker; exact Halt.
  - cbn [prompt_text]. split.
    + apply (display_alternating order (Some s) (SystemMessage s :: rest)
               rest eq_refl Halt).
    + apply turns_text_starts_with_marker; exact Halt.
Qed.

Lemma llama_display_valid_witness :
  display AlternationFirst
    [user "  human message1  "; ai "     ai message1     ";
     user "  human message2  "]
  = Ok ("<s>[INST] human message1 [/INST] ai message1 </s><s>[INST] human message2 [/INST]",
        []).
Proof.
  apply (proj1 llama_display_valid AlternationFirst
           [user "  human message1  "; ai "     ai message1     ";
            user "  human message2  "]).
  apply valid_without_system, alternating_turn, alternating_query.
Defined.

(** C5, on a sequence that breaks both rules: a lone assistant message
    does not end on a user message and starts with an assistant message.
    One text is reported, the one of the check that runs first, so each
    order of the checks contradicts one half of the claim. *)
Lemma llama_display_one_error_for_two_violations :
  ends_on_user [ai "hi"] = false
  /\ non_alternating [ai "hi"]
  /\ display LastMessageFirst [ai "hi"]
     = Raise (ValidationError "The last message must be from user")
  /\ display LastMessageFirst [ai "hi"]
     <> Raise (ValidationError alternation_error)
  /\ display AlternationFirst [ai "hi"]
     = Raise (ValidationError alternation_error)
  /\ display AlternationFirst [ai "hi"]
     <> Raise (ValidationError "The last message must be from user").
Proof.
  repeat split; try reflexivity; try (vm_compute; discriminate).
  apply assistant_first.
Qed.

(** C5 (amended): with [rest] the messages after the optional leading
    system message, the emulator fails with exactly
    ["The last message must be from user"] when the sequence does not end
    on a user message and either the alternation holds or the last-message
    check runs first; it fails with exactly the alternation text on any
    non-alternating adjacency (an assistant message first, two consecutive
    user messages, two consecutive assistant messages) when either the
    sequence ends on a user message or the alternation check runs first. *)
Theorem llama_display_errors (order : CheckOrder)
    (messages : list BaseMessage) :
  let rest := snd (split_system messages) in
  (ends_on_user messages = false ->
   order = LastMessageFirst \/ alternates true rest = true ->
   display order messages
   = Raise (ValidationError "The last message must be from user"))
  /\ (non_alternating rest ->
      order = AlternationFirst \/ ends_on_user messages = true ->
      display order messages
      = Raise (ValidationError
                 "The model only supports initial optional system message and follow-up alternating human/assistant messages")).
Proof.
  cbv zeta. rewrite display_unfold, first_failure_of_checks.
  rewrite ends_on_user_split_system. split.
  - intros Hend Hor. rewrite Hend.
    destruct Hor as [->|Halt]; [|rewrite Halt; destruct order; reflexivity].
    destruct (alternates true (snd (split_system messages))); reflexivity.
  - intros Hnon Hor. rewrite (non_alternating_fails_check _ Hnon).
    destruct Hor as [->|Hend]; [|rewrite Hend; destruct order; reflexivity].
    destruct (ends_on_user messages); reflexivity.
Qed.

Lemma llama_display_errors_witness :
  display AlternationFirst
    [user "  human message1  "; ai "     ai message1     ";
     user "  human message2  "; ai "     ai message2     "]
  = Raise (ValidationError "The last message must be from user")
  /\ display LastMessageFirst
       [ai "     ai message1     "; user "  human message1  ";
        user "  human message2  "]
     = Raise (ValidationError
                "The model only supports initial optional system message and follow-up alternating human/assistant messages").
Proof.
  split.
  - apply (proj1 (llama_display_errors AlternationFirst _)).
    + reflexivity.
    + right. reflexivity.
  - apply (proj2 (llama_display_errors LastMessageFirst _)).
    + apply assistant_first.
    + right. reflexivity.
Defined.

End LlamaProperties.


(** ** Tool-use blocks and their way back ([tools.py], [converters.py]) *)

Section ToolBlockProperties.
Import Message Tools Converters ToolBlocks ClaudeMessages.
Local Open Scope string_scope.

Variable json : Type.
Variable json_dumps : json -> string.
Variable json_loads : string -> option json.
Variable guess_type : string -> option string.
Variable fetch : Download -> option string.

Local Abbreviation convert :=
  (to_claude_messages json json_loads guess_type fetch).
Local Abbreviation block_call := (to_dial_tool_call json json_dumps).
Local Abbreviation block_function := (to_dial_function_call json json_dumps).

(** X6: the tool-use block and the finish reason of one response agree.
    Whatever the block and the mode, [process_tools_block] and
    [to_dial_finish_reason] on ["tool_use"] either both raise the same
    validation error (no mode), or give a tool call with [TOOL_CALLS]
    (mode [TOOLS]), or a function call with [FUNCTION_CALL] (mode
    [FUNCTIONS]). *)
Theorem process_tools_block_agrees_with_finish_reason
    (block : ToolUseBlock json) (mode : option ToolsMode) :
  match process_tools_block json json_dumps block mode,
        to_dial_finish_reason (Some "tool_use") mode with
  | Ok (create_function_tool_call call), Ok reason =>
      reason = TOOL_CALLS /\ mode = Some TOOLS /\ tc_id call = block_id json block
  | Ok (create_function_call call), Ok reason =>
      reason = FUNCTION_CALL /\ mode = Some FUNCTIONS
      /\ fc_name call = block_name json block
  | Raise e, Raise e' => e = e' /\ mode = None
  | _, _ => False
  end.
Proof.
  destruct mode as [[]|]; cbn; repeat split; reflexivity.
Qed.

(** X7: under mode [TOOLS] a tool-use block survives the round trip
    through the client.  When [json.loads] undoes [json.dumps], the tool
    call [process_tools_block] hands to the consumer, sent back as an
    assistant message with that one tool call, is parsed, passes
    [process_with_tools] unchanged and is converted, with no download, to
    one assistant message whose only block is the original block: same id,
    same name, same input. *)
Theorem tool_use_block_round_trip_tools
    (file_storage : option Storage.FileStorage) (block : ToolUseBlock json) :
  (forall j : json, json_loads (json_dumps j) = Some j) ->
  exists m : AnyMessage,
    process_tools_block json json_dumps block (Some TOOLS)
    = Ok (create_function_tool_call (block_call block))
    /\ parse_dial_message
         (mkWireMessage ASSISTANT None None None (Some [block_call block])
            None None) = Ok m
    /\ process_with_tools m (Some TOOLS) = Ok m
    /\ convert [m] file_storage
       = ([], inl (None,
                   [mkMessageParam json "assistant"
                      [BlockToolUse json
                         (mkToolUseBlockParam json (block_id json block)
                            (block_name json block)
                            (block_input json block))]])).
Proof.
  intros Hjson.
  exists (Tool (AIToolCallMessage [block_call block] None)).
  repeat split.
  cbn. unfold _to_claude_tool_call. cbn. rewrite Hjson. reflexivity.
Qed.

(** X8: under mode [FUNCTIONS] the function's name stands in for the id on
    the way back.  When [json.loads] undoes [json.dumps], the function call
    [process_tools_block] hands to the consumer, sent back as an assistant
    message, and its result, sent back as a function message under that
    name, are parsed, rewritten by [process_with_tools] and converted to a
    tool-use block and a tool-result block that carry the same id, the
    function's name; the block's own id is not kept. *)
Theorem tool_use_block_round_trip_functions
    (file_storage : option Storage.FileStorage) (block : ToolUseBlock json)
    (answer : string) :
  (forall j : json, json_loads (json_dumps j) = Some j) ->
  exists m1 m2 m1' m2' : AnyMessage,
    process_tools_block json json_dumps block (Some FUNCTIONS)
    = Ok (create_function_call (block_function block))
    /\ parse_dial_message
         (mkWireMessage ASSISTANT None None None None None
            (Some (block_function block))) = Ok m1
    /\ parse_dial_message
         (mkWireMessage FUNCTION (Some answer) None
            (Some (block_name json block)) None None None) = Ok m2
    /\ process_with_tools m1 (Some FUNCTIONS) = Ok m1'
    /\ process_with_tools m2 (Some FUNCTIONS) = Ok m2'
    /\ convert [m1'; m2'] file_storage
       = ([], inl (None,
                   [mkMessageParam json "assistant"
                      [BlockToolUse json
                         (mkToolUseBlockParam json (block_name json block)
                            (block_name json block)
                            (block_input json block))];
                    mkMessageParam json "user"
                      [BlockToolResult json
                         (mkToolResultBlockParam (block_name json block)
                            [mkTextBlockParam answer])]])).
Proof.
  intros Hjson.
  exists (Tool (AIFunctionCallMessage (block_function block) None)),
         (Tool (HumanFunctionResultMessage (block_name json block) answer)),
         (Tool (AIToolCallMessage
                  [mkToolCall None (block_name json block) "function"
                     (block_function block)] None)),
         (Tool (HumanToolResultMessage (block_name json block) answer)).
  repeat split.
  cbn. unfold _to_claude_tool_call. cbn. rewrite Hjson. reflexivity.
Qed.

End ToolBlockProperties.

Lemma tool_use_block_round_trip_tools_witness :
  exists m : Message.AnyMessage,
    Tools.process_with_tools m (Some TOOLS) = Ok m
    /\ ClaudeMessages.to_claude_messages string (fun s => Some s)
         (fun _ => None) (fun _ => None) [m] None
       = ([], inl (None,
                   [ClaudeMessages.mkMessageParam string "assistant"
                      [ClaudeMessages.BlockToolUse string
                         (ClaudeMessages.mkToolUseBlockParam string
                            "toolu_1" "get_weather" "{}")]])).
Proof.
  destruct (tool_use_block_round_trip_tools string (fun s => s)
              (fun s => Some s) (fun _ => None) (fun _ => None) None
              (ToolBlocks.mkToolUseBlock string "toolu_1" "get_weather" "{}"))
    as (m & _ & _ & Hpass & Hconv).
  - reflexivity.
  - exists m. split; [exact Hpass | exact Hconv].
Defined.

Lemma tool_use_block_round_trip_functions_witness :
  exists m1' m2' : Message.AnyMessage,
    ClaudeMessages.to_claude_messages string (fun s => Some s)
      (fun _ => None) (fun _ => None) [m1'; m2'] None
    = ([], inl (None,
                [ClaudeMessages.mkMessageParam string "assistant"
                   [ClaudeMessages.BlockToolUse string
                      (ClaudeMessages.mkToolUseBlockParam string
                         "get_weather" "get_weather" "{}")];
                 ClaudeMessages.mkMessageParam string "user"
                   [ClaudeMessages.BlockToolResult string
                      (ClaudeMessages.mkToolResultBlockParam "get_weather"
                         [ClaudeMessages.mkTextBlockParam "sunny"])]])).
Proof.
  destruct (tool_use_block_round_trip_functions string (fun s => s)
              (fun s => Some s) (fun _ => None) (fun _ => None) None
              (ToolBlocks.mkToolUseBlock string "toolu_1" "get_weather" "{}")
              "sunny")
    as (m1 & m2 & m1' & m2' & _ & _ & _ & _ & _ & Hconv).
  - reflexivity.
  - exists m1', m2'. exact Hconv.
Defined.


(** ** Conversion to Claude messages ([converters.py]) *)

Section ConversionProperties.
Import Message Tools ClaudeMessages.
Local Open Scope string_scope.

Variable json : Type.
Variable json_loads : string -> option json.
Variable guess_type : string -> option string.
Variable fetch : Download -> option string.

Local Abbreviation convert :=
  (to_claude_messages json json_loads guess_type fetch).
Local Abbreviation convert_one :=
  (to_claude_message_param json json_loads guess_type fetch).
Local Abbreviation image := (_to_claude_image guess_type fetch).
Local Abbreviation blocks_of :=
  (_to_claude_message json guess_type fetch).

Lemma bind_success {A B : Type} (m : IO A) (k : A -> IO B)
    (asked : list Download) (b : B) :
  bind m k = (asked, inl b) ->
  exists asked1 a asked2,
    m = (asked1, inl a) /\ k a = (asked2, inl b)
    /\ asked = (asked1 ++ asked2)%list.
Proof.
  unfold bind. destruct m as [asked1 [a|e]]; [|discriminate].
  destruct (k a) as [asked2 r] eqn:Hk. intros H. inversion H; subst.
  exists asked1, a, asked2. repeat split. exact Hk.
Qed.

Lemma bind_failure {A B : Type} (m : IO A) (k : A -> IO B) (e : Failure) :
  snd (bind m k) = inr e ->
  snd m = inr e \/ exists asked a, m = (asked, inl a) /\ snd (k a) = inr e.
Proof.
  unfold bind. destruct m as [asked [a|e']]; cbn.
  - destruct (k a) as [asked2 r] eqn:Hk. cbn. intros ->.
    right. exists asked, a. rewrite Hk. split; reflexivity.
  - intros H. left. inversion H. reflexivity.
Qed.

Lemma for_each_success {A B : Type} (f : A -> IO B) (l : list A) :
  forall (asked : list Download) (ys : list B),
    for_each f l = (asked, inl ys) ->
    Forall2 (fun x y => exists asked', f x = (asked', inl y)) l ys.
Proof.
  induction l as [|x rest IH]; intros asked ys; cbn [for_each].
  - intros H. inversion H. constructor.
  - intros H. apply bind_success in H.
    destruct H as (asked1 & y & asked2 & Hx & Hrest & _).
    apply bind_success in Hrest.
    destruct Hrest as (asked3 & ys' & asked4 & Hys & Hret & _).
    inversion Hret; subst. constructor; [|eapply IH; exact Hys].
    exists asked1. exact Hx.
Qed.

Lemma for_each_failure {A B : Type} (f : A -> IO B) (l : list A)
    (e : Failure) :
  snd (for_each f l) = inr e -> exists x, In x l /\ snd (f x) = inr e.
Proof.
  induction l as [|x rest IH]; cbn [for_each]; [discriminate|].
  intros H. apply bind_failure in H. destruct H as [H|(a1 & y & _ & H)].
  - exists x. split; [left; reflexivity | exact H].
  - apply bind_failure in H. destruct H as [H|(a2 & ys & _ & H)].
    + destruct (IH H) as (x' & Hin & Hx'). exists x'. split; [right|]; assumption.
    + discriminate H.
Qed.

Lemma for_each_stops {A B : Type} (f : A -> IO B) (l : list A) (x : A) :
  In x l -> (exists e, snd (f x) = inr e) ->
  exists e, snd (for_each f l) = inr e.
Proof.
  induction l as [|y rest IH]; cbn [for_each]; [intros []|].
  intros Hin Hx. unfold bind at 1.
  destruct (f y) as [asked [b|e]] eqn:Hy.
  - destruct Hin as [->|Hin].
    + destruct Hx as [e He]. rewrite Hy in He. discriminate He.
    + destruct (IH Hin Hx) as [e He].
      destruct (for_each f rest) as [asked' [ys|e']]; cbn in He |- *;
        [discriminate He|].
      exists e'. reflexivity.
  - exists e. reflexivity.
Qed.

Lemma validate_media_type_success (media_type : string)
    (asked : list Download) (validated : string) :
  _validate_media_type media_type = (asked, inl validated) ->
  validated = media_type /\ asked = [] /\ In media_type IMAGE_MEDIA_TYPES.
Proof.
  unfold _validate_media_type.
  destruct (existsb (String.eqb media_type) IMAGE_MEDIA_TYPES) eqn:Hmem;
    intros H; inversion H; subst. repeat split.
  apply existsb_exists in Hmem. destruct Hmem as (t & Hin & Heq).
  apply String.eqb_eq in Heq. subst. exact Hin.
Qed.

Lemma truthy_some (s : option string) :
  truthy s = true -> exists text, s = Some text /\ text <> "".
Proof.
  destruct s as [text|]; [|discriminate]. cbn. intros H.
  exists text. split; [reflexivity|].
  intros ->. discriminate H.
Qed.

Lemma image_media_type_supported
    (attachment : Attachment) (file_storage : option Storage.FileStorage)
    (asked : list Download) (block : ImageBlockParam) :
  image attachment file_storage = (asked, inl block) ->
  In (source_media_type block) IMAGE_MEDIA_TYPES.
Proof.
  unfold _to_claude_image.
  destruct (truthy (att_data attachment)).
  - destruct (truthy (att_type attachment)); cbn [negb]; [|discriminate].
    intros H. apply bind_success in H.
    destruct H as (a1 & media & a2 & Hvalid & Hret & _).
    apply validate_media_type_success in Hvalid.
    destruct Hvalid as (-> & _ & Hin). inversion Hret; subst. exact Hin.
  - destruct (truthy (att_url attachment)); [|discriminate].
    destruct (truthy (if truthy (att_type attachment)
                      then att_type attachment else guess_type _));
      cbn [negb]; [|discriminate].
    intros H. apply bind_success in H.
    destruct H as (a1 & data & a2 & _ & H & _).
    apply bind_success in H.
    destruct H as (a3 & media & a4 & Hvalid & Hret & _).
    apply validate_media_type_success in Hvalid.
    destruct Hvalid as (-> & _ & Hin). inversion Hret; subst. exact Hin.
Qed.

(** X9: an image block is only ever built with a supported media type.
    Whenever [_to_claude_image] returns a block, its media type is one of
    the four of [IMAGE_MEDIA_TYPES]; with inline data the block holds that
    data and nothing was downloaded, whatever the URL; otherwise the block
    holds what the one download of the attachment's URL returned. *)
Theorem to_claude_image_block
    (attachment : Attachment) (file_storage : option Storage.FileStorage)
    (asked : list Download) (block : ImageBlockParam) :
  image attachment file_storage = (asked, inl block) ->
  In (source_media_type block) IMAGE_MEDIA_TYPES
  /\ (truthy (att_data attachment) = true ->
      att_data attachment = Some (source_data block) /\ asked = [])
  /\ (truthy (att_data attachment) = false ->
      exists url download,
        att_url attachment = Some url
        /\ download = match file_storage with
                      | None => DirectDownload url
                      | Some storage => StorageDownload storage url
                      end
        /\ asked = [download]
        /\ fetch download = Some (source_data block)).
Proof.
  unfold _to_claude_image.
  destruct (truthy (att_data attachment)) eqn:Hdata.
  - destruct (truthy (att_type attachment)) eqn:Htype; cbn [negb];
      [|discriminate].
    intros H. apply bind_success in H.
    destruct H as (a1 & media & a2 & Hvalid & Hret & ->).
    apply validate_media_type_success in Hvalid.
    destruct Hvalid as (-> & -> & Hin). inversion Hret; subst. cbn.
    split; [exact Hin|]. split; [|discriminate].
    intros _. apply truthy_some in Hdata. destruct Hdata as (d & -> & _).
    split; reflexivity.
  - destruct (truthy (att_url attachment)) eqn:Hurl; [|discriminate].
    apply truthy_some in Hurl. destruct Hurl as (url & Hsome & _).
    rewrite Hsome.
    destruct (truthy (if truthy (att_type attachment)
                      then att_type attachment else guess_type url));
      cbn [negb]; [|discriminate].
    intros H. apply bind_success in H.
    destruct H as (a1 & data & a2 & Hdl & H & ->).
    apply bind_success in H.
    destruct H as (a3 & media & a4 & Hvalid & Hret & ->).
    apply validate_media_type_success in Hvalid.
    destruct Hvalid as (-> & -> & Hin). inversion Hret; subst. cbn.
    split; [exact Hin|]. split; [discriminate|]. intros _.
    unfold _download_data in Hdl.
    destruct (fetch _) as [d|] eqn:Hfetch; inversion Hdl; subst.
    eexists url, _. repeat split. exact Hfetch.
Qed.

(** X10: a URL attachment is downloaded before its media type is checked
    against the supported ones.  For an attachment without inline data and
    with a URL: when no media type is given and none can be guessed, the
    call raises the validation error and downloads nothing; when a media
    type is known, supported or not, the URL is downloaded, exactly once. *)
Theorem to_claude_image_downloads
    (attachment : Attachment) (file_storage : option Storage.FileStorage)
    (url : string) :
  truthy (att_data attachment) = false ->
  att_url attachment = Some url ->
  url <> "" ->
  let media_type :=
    if truthy (att_type attachment) then att_type attachment
    else guess_type url in
  (truthy media_type = false ->
   image attachment file_storage
   = ([], inr (Adapter (ValidationError
                          ("Cannot guess attachment type for " ++ url)))))
  /\ (truthy media_type = true ->
      fst (image attachment file_storage)
      = [match file_storage with
         | None => DirectDownload url
         | Some storage => StorageDownload storage url
         end]).
Proof.
  intros Hdata Hurl Hne media_type. unfold _to_claude_image.
  rewrite Hdata, Hurl.
  assert (truthy (Some url) = true) as ->.
  { cbn. destruct (String.eqb_spec url ""); [contradiction | reflexivity]. }
  fold media_type. split; intros Hmedia; rewrite Hmedia; cbn [negb].
  - reflexivity.
  - unfold _download_data, bind.
    destruct (fetch _); [|reflexivity].
    destruct (_validate_media_type _) as [a [m|e]] eqn:Hvalid.
    + apply validate_media_type_success in Hvalid.
      destruct Hvalid as (_ & -> & _). reflexivity.
    + unfold _validate_media_type in Hvalid.
      destruct (existsb _ _); inversion Hvalid; reflexivity.
Qed.

Lemma to_claude_message_success (content : string)
    (custom_content : option CustomContent)
    (file_storage : option Storage.FileStorage)
    (asked : list Download) (blocks : list (ContentBlock json)) :
  blocks_of content custom_content file_storage = (asked, inl blocks) ->
  exists images : list ImageBlockParam,
    blocks
    = (map (BlockImage json) images
         ++ [BlockText json (mkTextBlockParam content)])%list
    /\ Forall2
         (fun a i => exists asked', image a file_storage = (asked', inl i))
         (attachments_of custom_content) images.
Proof.
  unfold _to_claude_message. intros H. apply bind_success in H.
  destruct H as (a1 & images & a2 & Heach & Hret & _).
  inversion Hret; subst. exists images. split; [reflexivity|].
  eapply for_each_success; exact Heach.
Qed.

(** X11: the content of a converted regular message is its images followed
    by its text.  Whenever [_to_claude_message] returns, the blocks are one
    image block per attachment, in the attachments' order (the n-th image
    block is what [_to_claude_image] returned for the n-th attachment) and
    each with a supported media type, followed by exactly one text block,
    the last, that holds the message's text; a message without attachments
    gives the text block alone. *)
Theorem to_claude_message_blocks (content : string)
    (custom_content : option CustomContent)
    (file_storage : option Storage.FileStorage)
    (asked : list Download) (blocks : list (ContentBlock json)) :
  blocks_of content custom_content file_storage = (asked, inl blocks) ->
  exists images : list ImageBlockParam,
    blocks
    = (map (BlockImage json) images
         ++ [BlockText json (mkTextBlockParam content)])%list
    /\ Forall2
         (fun attachment block =>
            exists asked', image attachment file_storage = (asked', inl block))
         (attachments_of custom_content) images
    /\ List.length images = List.length (attachments_of custom_content)
    /\ Forall (fun i => In (source_media_type i) IMAGE_MEDIA_TYPES) images
    /\ (attachments_of custom_content = [] ->
        blocks = [BlockText json (mkTextBlockParam content)]).
Proof.
  intros H. apply to_claude_message_success in H.
  destruct H as (images & -> & Hall). exists images.
  split; [reflexivity|]. split; [exact Hall|]. split; [|split].
  - symmetry. eapply Forall2_length; exact Hall.
  - clear - Hall. induction Hall as [|a i l l' [asked' Hi] _ IH];
      constructor; [|exact IH].
    apply (image_media_type_supported a file_storage asked' i Hi).
  - intros Hnone. rewrite Hnone in Hall. inversion Hall. reflexivity.
Qed.

Lemma convert_one_role (message : AnyMessage)
    (file_storage : option Storage.FileStorage)
    (asked : list Download) (param : MessageParam json) :
  convert_one message file_storage = (asked, inl param) ->
  param_role json param = claude_role message /\ is_system message = false.
Proof.
  destruct message as [[c|c cc|c cc]|[i c|n c|calls c|call c]];
    cbn [to_claude_message_param]; try discriminate; intros H.
  - apply bind_success in H. destruct H as (? & ? & ? & _ & H & _).
    inversion H. split; reflexivity.
  - apply bind_success in H. destruct H as (? & ? & ? & _ & H & _).
    inversion H. split; reflexivity.
  - inversion H. split; reflexivity.
  - apply bind_success in H. destruct H as (? & ? & ? & _ & H & _).
    inversion H. split; reflexivity.
Qed.

Lemma convert_unfold (messages : list AnyMessage)
    (file_storage : option Storage.FileStorage) :
  let leading :=
    match messages with
    | Base (SystemMessage c) :: _ => Some c
    | _ => None
    end in
  let rest :=
    match messages with
    | Base (SystemMessage _) :: rest => rest
    | _ => messages
    end in
  convert messages file_storage
  = (claude_messages <-
       for_each (fun m => convert_one m file_storage) rest ;;
     ret (leading, claude_messages)).
Proof.
  destruct messages as [|[[c|c cc|c cc]|t] rest]; reflexivity.
Qed.

(** X12: a successful conversion keeps one message per conversation
    message, in order.  Whenever [to_claude_messages] returns, the system
    prompt is the content of the leading system message, or [None] when the
    conversation does not start with one; every other message gave exactly
    one Claude message, in the same order, with role ["user"] for a user
    message or a tool result and ["assistant"] for an assistant message or
    tool call; and none of those messages is a system message. *)
Theorem to_claude_messages_roles (messages : list AnyMessage)
    (file_storage : option Storage.FileStorage)
    (asked : list Download) (system_prompt : option string)
    (claude_messages : list (MessageParam json)) :
  convert messages file_storage
  = (asked, inl (system_prompt, claude_messages)) ->
  let rest :=
    match messages with
    | Base (SystemMessage _) :: rest => rest
    | _ => messages
    end in
  system_prompt
  = match messages with
    | Base (SystemMessage c) :: _ => Some c
    | _ => None
    end
  /\ map (param_role json) claude_messages = map claude_role rest
  /\ existsb is_system rest = false.
Proof.
  rewrite convert_unfold. cbv zeta. intros H. apply bind_success in H.
  destruct H as (a1 & out & a2 & Heach & Hret & _).
  inversion Hret; subst. split; [reflexivity|].
  apply for_each_success in Heach.
  set (rest := match messages with
               | Base (SystemMessage _) :: rest => rest
               | _ => messages
               end) in *.
  clearbody rest. clear Hret.
  induction Heach as [|m p l l' [asked' Hone] _ [IHroles IHsys]].
  - split; reflexivity.
  - apply convert_one_role in Hone. destruct Hone as [Hrole Hsys].
    cbn [map existsb]. rewrite Hrole, Hsys, IHroles, IHsys.
    split; reflexivity.
Qed.

(** X13: a system message is accepted in the first position only.  If any
    message after the first is a system message, [to_claude_messages]
    raises, whatever else the conversation holds. *)
Theorem to_claude_messages_rejects_late_system_message
    (messages : list AnyMessage) (file_storage : option Storage.FileStorage) :
  existsb is_system (tl messages) = true ->
  exists e : Failure, snd (convert messages file_storage) = inr e.
Proof.
  intros Hlate. apply existsb_exists in Hlate.
  destruct Hlate as (m & Hin & Hsys).
  assert (exists e, snd (convert_one m file_storage) = inr e) as Hfails.
  { destruct m as [[c|c cc|c cc]|[]]; try discriminate Hsys.
    eexists. reflexivity. }
  rewrite convert_unfold. cbv zeta.
  assert (In m match messages with
               | Base (SystemMessage _) :: rest => rest
               | _ => messages
               end) as Hrest.
  { destruct messages as [|[[c|c cc|c cc]|t] rest]; cbn in Hin |- *;
      try exact Hin; right; exact Hin. }
  destruct (for_each_stops (fun m => convert_one m file_storage) _ m Hrest
              Hfails) as [e He].
  exists e. unfold bind.
  destruct (for_each _ _) as [asked [out|e']]; cbn in He |- *;
    [discriminate He | inversion He; reflexivity].
Qed.

Lemma image_never_asserts (attachment : Attachment)
    (file_storage : option Storage.FileStorage) :
  snd (image attachment file_storage) <> inr (Adapter AssertionError).
Proof.
  unfold _to_claude_image, _validate_media_type, _download_data, bind, throw,
    ret.
  repeat match goal with
         | |- context [if ?b then _ else _] => destruct b
         | |- context [match fetch ?d with _ => _ end] => destruct (fetch d)
         end; cbn; discriminate.
Qed.

Lemma convert_one_asserts (message : AnyMessage)
    (file_storage : option Storage.FileStorage) :
  snd (convert_one message file_storage) = inr (Adapter AssertionError) ->
  is_function_message message = true.
Proof.
  destruct message as [[c|c cc|c cc]|[i c|n c|calls c|call c]];
    cbn [to_claude_message_param is_function_message]; try reflexivity;
    intros H; exfalso.
  - discriminate H.
  - apply bind_failure in H. destruct H as [H|(? & ? & _ & H)];
      [|discriminate H].
    unfold _to_claude_message in H. apply bind_failure in H.
    destruct H as [H|(? & ? & _ & H)]; [|discriminate H].
    apply for_each_failure in H. destruct H as (a & _ & H).
    exact (image_never_asserts a file_storage H).
  - apply bind_failure in H. destruct H as [H|(? & ? & _ & H)];
      [|discriminate H].
    unfold _to_claude_message in H. apply bind_failure in H.
    destruct H as [H|(? & ? & _ & H)]; [|discriminate H].
    apply for_each_failure in H. destruct H as (a & _ & H).
    exact (image_never_asserts a file_storage H).
  - discriminate H.
  - apply bind_failure in H. destruct H as [H|(? & ? & _ & H)];
      [|discriminate H].
    apply for_each_failure in H. destruct H as (call & _ & H).
    unfold _to_claude_tool_call in H. destruct (json_loads _); discriminate H.
Qed.

Lemma processed_is_not_function_message (m m' : AnyMessage)
    (mode : option ToolsMode) :
  process_with_tools m mode = Ok m' -> is_function_message m' = false.
Proof.
  destruct mode as [[]|]; destruct m as [[]|[]]; cbn; intros H;
    inversion H; reflexivity.
Qed.

(** X14: what [process_with_tools] lets through, [to_claude_messages] can
    match.  If every message of a conversation went through
    [process_with_tools] under one mode, none of the results is a
    function-call or function-result message, and converting them never
    reaches [assert_never]. *)
Theorem processed_messages_never_reach_assert_never
    (mode : option ToolsMode) (messages processed : list AnyMessage)
    (file_storage : option Storage.FileStorage) :
  Forall2 (fun m m' => process_with_tools m mode = Ok m') messages processed ->
  Forall (fun m' => is_function_message m' = false) processed
  /\ snd (convert processed file_storage) <> inr (Adapter AssertionError).
Proof.
  intros Hall.
  assert (Forall (fun m' => is_function_message m' = false) processed)
    as Hshape.
  { induction Hall as [|m m' l l' Hm _ IH]; constructor; [|exact IH].
    eapply processed_is_not_function_message; exact Hm. }
  split; [exact Hshape|].
  rewrite convert_unfold. cbv zeta. intros H.
  apply bind_failure in H. destruct H as [H|(? & ? & _ & H)];
    [|discriminate H].
  apply for_each_failure in H. destruct H as (m & Hin & Hm).
  apply convert_one_asserts in Hm.
  rewrite Forall_forall in Hshape.
  assert (In m processed) as Hin'.
  { destruct processed as [|[[c|c cc|c cc]|t] rest]; cbn in Hin |- *;
      try exact Hin; right; exact Hin. }
  rewrite (Hshape m Hin') in Hm. discriminate Hm.
Qed.

Lemma for_each_asks_nothing {A B : Type} (f : A -> IO B) (l : list A) :
  (forall x, In x l -> fst (f x) = []) -> fst (for_each f l) = [].
Proof.
  induction l as [|x rest IH]; intros Hall; cbn [for_each]; [reflexivity|].
  assert (fst (f x) = []) as Hx by (apply Hall; left; reflexivity).
  assert (fst (for_each f rest) = []) as Hrest
      by (apply IH; intros y Hy; apply Hall; right; exact Hy).
  unfold bind, ret.
  destruct (f x) as [asked [y|e]]; cbn in Hx; subst; [|reflexivity].
  destruct (for_each f rest) as [asked' [ys|e]]; cbn in Hrest; subst;
    reflexivity.
Qed.

(** X19: a conversation without attachments is converted without touching
    the network.  If no user or assistant message of the conversation
    carries an attachment, [to_claude_messages] downloads nothing, whether
    it returns or raises. *)
Theorem to_claude_messages_without_attachments
    (messages : list AnyMessage) (file_storage : option Storage.FileStorage) :
  Forall
    (fun m =>
       match m with
       | Base (HumanRegularMessage _ cc)
       | Base (AIRegularMessage _ cc) => attachments_of cc = []
       | _ => True
       end) messages ->
  fst (convert messages file_storage) = [].
Proof.
  intros Hnone. rewrite convert_unfold. cbv zeta.
  assert (fst (for_each (fun m => convert_one m file_storage)
                 match messages with
                 | Base (SystemMessage _) :: rest => rest
                 | _ => messages
                 end) = []) as Hloop.
  { apply for_each_asks_nothing. intros m Hin.
    assert (In m messages) as Hin'.
    { destruct messages as [|[[c|c cc|c cc]|t] rest]; cbn in Hin |- *;
        try exact Hin; right; exact Hin. }
    rewrite Forall_forall in Hnone. specialize (Hnone m Hin').
    destruct m as [[c|c cc|c cc]|[i c|n c|calls c|call c]];
      cbn [to_claude_message_param]; try reflexivity.
    - unfold _to_claude_message. rewrite Hnone. reflexivity.
    - unfold _to_claude_message. rewrite Hnone. reflexivity.
    - assert (fst (for_each (_to_claude_tool_call json json_loads) calls) = [])
        as Hcalls.
      { apply for_each_asks_nothing. intros call _.
        unfold _to_claude_tool_call. destruct (json_loads _); reflexivity. }
      unfold bind, ret.
      destruct (for_each _ calls) as [asked [uses|e]]; cbn in Hcalls; subst;
        reflexivity. }
  unfold bind, ret.
  destruct (for_each _ _) as [asked [out|e]]; cbn in Hloop; subst;
    reflexivity.
Qed.

End ConversionProperties.

Section ConversionWitnesses.
Import Message Tools ClaudeMessages.
Local Open Scope string_scope.

Lemma to_claude_image_block_witness :
  In "image/png" IMAGE_MEDIA_TYPES.
Proof.
  apply (to_claude_image_block (fun _ => None) (fun _ => None)
           (mkAttachment (Some "image/png") (Some "QUJD")
              (Some "https://example.com/cat.png"))
           None [] (mkImageBlockParam "QUJD" "image/png")).
  reflexivity.
Defined.

Lemma to_claude_image_downloads_witness :
  fst (_to_claude_image (fun _ => None) (fun _ => Some "QUJD")
         (mkAttachment (Some "image/bmp") None
            (Some "https://example.com/cat.bmp")) None)
  = [DirectDownload "https://example.com/cat.bmp"].
Proof.
  apply (to_claude_image_downloads (fun _ => None) (fun _ => Some "QUJD")
           (mkAttachment (Some "image/bmp") None
              (Some "https://example.com/cat.bmp"))
           None "https://example.com/cat.bmp").
  - reflexivity.
  - reflexivity.
  - discriminate.
  - reflexivity.
Defined.

Lemma to_claude_message_blocks_witness :
  let png := mkAttachment (Some "image/png") (Some "QUJD") None in
  let jpeg := mkAttachment (Some "image/jpeg") (Some "REVG") None in
  exists images : list ImageBlockParam,
    [BlockImage string (mkImageBlockParam "QUJD" "image/png");
     BlockImage string (mkImageBlockParam "REVG" "image/jpeg");
     BlockText string (mkTextBlockParam "What are these?")]
    = (map (BlockImage string) images
         ++ [BlockText string (mkTextBlockParam "What are these?")])%list
    /\ Forall2
         (fun attachment block =>
            exists asked',
              _to_claude_image (fun _ => None) (fun _ => None) attachment None
              = (asked', inl block))
         [png; jpeg] images.
Proof.
  cbv zeta.
  destruct (to_claude_message_blocks string (fun _ => None) (fun _ => None)
              "What are these?"
              (Some (mkCustomContent
                       (Some [mkAttachment (Some "image/png") (Some "QUJD")
                                None;
                              mkAttachment (Some "image/jpeg") (Some "REVG")
                                None])))
              None []
              [BlockImage string (mkImageBlockParam "QUJD" "image/png");
               BlockImage string (mkImageBlockParam "REVG" "image/jpeg");
               BlockText string (mkTextBlockParam "What are these?")])
    as (images & Hblocks & Horder & _).
  - reflexivity.
  - exists images. split; [exact Hblocks | exact Horder].
Defined.

Lemma to_claude_messages_roles_witness :
  Some "Be brief." = Some "Be brief."
  /\ map (param_role string)
       [mkMessageParam string "user"
          [BlockText string (mkTextBlockParam "Hello")];
        mkMessageParam string "assistant"
          [BlockText string (mkTextBlockParam "Hi")]]
     = map claude_role
         [Base (HumanRegularMessage "Hello" None);
          Base (AIRegularMessage "Hi" None)]
  /\ existsb is_system
       [Base (HumanRegularMessage "Hello" None);
        Base (AIRegularMessage "Hi" None)] = false.
Proof.
  apply (to_claude_messages_roles string (fun s => Some s) (fun _ => None)
           (fun _ => None)
           [Base (SystemMessage "Be brief.");
            Base (HumanRegularMessage "Hello" None);
            Base (AIRegularMessage "Hi" None)]
           None []).
  reflexivity.
Defined.

Lemma to_claude_messages_rejects_late_system_message_witness :
  exists e : Failure,
    snd (to_claude_messages string (fun s => Some s) (fun _ => None)
           (fun _ => None)
           [Base (HumanRegularMessage "Hello" None);
            Base (SystemMessage "Be brief.")] None)
    = inr e.
Proof.
  apply to_claude_messages_rejects_late_system_message.
  reflexivity.
Defined.

Lemma processed_messages_never_reach_assert_never_witness :
  snd (to_claude_messages string (fun s => Some s) (fun _ => None)
         (fun _ => None)
         [Base (HumanRegularMessage "What is 2+2?" None);
          Tool (AIToolCallMessage
                  [mkToolCall None "add" "function" (mkFunctionCall "add" "{}")]
                  None);
          Tool (HumanToolResultMessage "add" "4")] None)
  <> inr (Adapter AssertionError).
Proof.
  refine (proj2 (processed_messages_never_reach_assert_never string
                  (fun s => Some s) (fun _ => None) (fun _ => None)
                  (Some FUNCTIONS)
                  [Base (HumanRegularMessage "What is 2+2?" None);
                   Tool (AIFunctionCallMessage (mkFunctionCall "add" "{}")
                           None);
                   Tool (HumanFunctionResultMessage "add" "4")]
                  _ None _)).
  repeat constructor.
Defined.

Lemma to_claude_messages_without_attachments_witness :
  fst (to_claude_messages string (fun _ => None) (fun _ => None)
         (fun _ => Some "QUJD")
         [Base (HumanRegularMessage "Hello" (Some (mkCustomContent None)));
          Tool (AIToolCallMessage
                  [mkToolCall None "call_1" "function"
                     (mkFunctionCall "f" "not json")] None)]
         None)
  = [].
Proof.
  apply to_claude_messages_without_attachments.
  repeat constructor.
Defined.

End ConversionWitnesses.


(** ** The file storage client ([dial_api/storage.py]) *)

Section StorageProperties.
Import Storage.
Local Open Scope string_scope.

Variable bucket_response : Request -> option Bucket.
Variable upload_response : Request -> option FileMetadata.
Variable guess_extension : string -> option string.

Local Abbreviation get_bucket := (_get_bucket bucket_response).
Local Abbreviation put_file :=
  (upload bucket_response upload_response guess_extension).

Lemma get_bucket_cached (self : FileStorage) (b : Bucket) :
  bucket self = Some b -> get_bucket self = ([], inl b, self).
Proof. unfold _get_bucket. intros ->. reflexivity. Qed.

Lemma get_bucket_outcome (self : FileStorage) :
  let request := GET (dial_url self ++ "/v1/bucket") (auth_headers self) in
  match get_bucket self with
  | (sent, inl b, self') =>
      dial_url self' = dial_url self /\ api_key self' = api_key self
      /\ bucket self' = Some b
      /\ (sent = [] \/ sent = [request])
  | (sent, inr e, self') =>
      self' = self /\ bucket self = None /\ sent = [request]
      /\ e = ClientResponseError request
  end.
Proof.
  unfold _get_bucket. destruct (bucket self) as [b|] eqn:Hb.
  - repeat split; auto.
  - cbv zeta. destruct (bucket_response _); cbn; repeat split; auto.
Qed.


(** X16: an upload needs the bucket first, and asks for it at most once.
    If the bucket request fails, [upload] raises and the file is not sent.
    After any upload that succeeded, a further upload sends exactly one
    request: the [PUT] of the file, with the storage's key, to
    [{dial_url}/v1/files/{appdata}/{filename}{ext}] of the remembered
    bucket. *)
Theorem upload_reuses_bucket :
  (forall (self : FileStorage) (filename content_type content : string),
      bucket self = None ->
      bucket_response (GET (dial_url self ++ "/v1/bucket") (auth_headers self))
      = None ->
      put_file filename content_type content self
      = ([GET (dial_url self ++ "/v1/bucket") (auth_headers self)],
         inr (ClientResponseError
                (GET (dial_url self ++ "/v1/bucket") (auth_headers self))),
         self))
  /\ (forall (self self' : FileStorage) (sent : list Request)
             (meta : FileMetadata)
             (filename content_type content : string)
             (filename' content_type' content' : string),
         put_file filename content_type content self = (sent, inl meta, self') ->
         exists b : Bucket,
           bucket self' = Some b
           /\ fst (fst (put_file filename' content_type' content' self'))
              = [PUT (dial_url self ++ "/v1/files/" ++ appdata b ++ "/"
                        ++ filename'
                        ++ match guess_extension content_type' with
                           | Some ext => ext
                           | None => ""
                           end)
                   [("api-key", api_key self)]
                   filename' content_type' content']).
Proof.
  split.
  - intros self filename content_type content Hnone Hfail.
    unfold upload, _get_bucket. rewrite Hnone, Hfail. reflexivity.
  - intros self self' sent meta filename content_type content
      filename' content_type' content' Hup.
    unfold upload in Hup.
    pose proof (get_bucket_outcome self) as H. cbv zeta in H.
    destruct (get_bucket self) as [[sent0 [b|e]] self0]; [|discriminate Hup].
    destruct H as (Hurl & Hkey & Hb & _).
    assert (self' = self0) as ->.
    { destruct (upload_response _); inversion Hup; reflexivity. }
    clear Hup. exists b. split; [exact Hb|].
    unfold upload. rewrite (get_bucket_cached self0 b Hb).
    unfold auth_headers. rewrite Hurl, Hkey.
    destruct (upload_response _); reflexivity.
Qed.

End StorageProperties.

Lemma upload_reuses_bucket_witness :
  let down := fun _ : Storage.Request => None in
  let up := fun _ : Storage.Request => Some (Storage.mkBucket "b1" "app1") in
  let stored :=
    fun _ : Storage.Request =>
      Some (Storage.mkFileMetadata "abc.png" "images" "b1"
              "files/app1/images/abc.png") in
  let self := Storage.new_file_storage "https://dial.example" "secret" in
  let self' :=
    Storage.mkFileStorage "https://dial.example" "secret"
      (Some (Storage.mkBucket "b1" "app1")) in
  Storage.upload down (fun _ => None) (fun _ => Some ".png")
    "images/abc" "image/png" "bytes" self
  = ([Storage.GET "https://dial.example/v1/bucket" [("api-key", "secret")]],
     inr (Storage.ClientResponseError
            (Storage.GET "https://dial.example/v1/bucket"
               [("api-key", "secret")])),
     self)
  /\ exists b : Storage.Bucket,
      Storage.bucket self' = Some b
      /\ fst (fst (Storage.upload up stored (fun _ => Some ".png")
                     "images/def" "image/png" "more bytes" self'))
         = [Storage.PUT
              ("https://dial.example" ++ "/v1/files/" ++ Storage.appdata b
                 ++ "/" ++ "images/def" ++ ".png")
              [("api-key", "secret")] "images/def" "image/png" "more bytes"].
Proof.
  cbv zeta. split.
  - apply (proj1 (upload_reuses_bucket (fun _ => None) (fun _ => None)
                    (fun _ => Some ".png"))); reflexivity.
  - eapply (proj2 (upload_reuses_bucket
                    (fun _ => Some (Storage.mkBucket "b1" "app1"))
                    (fun _ =>
                       Some (Storage.mkFileMetadata "abc.png" "images" "b1"
                               "files/app1/images/abc.png"))
                    (fun _ => Some ".png"))
             (Storage.new_file_storage "https://dial.example" "secret")
             _ _ _ "images/abc" "image/png" "bytes").
    reflexivity.
Defined.


(** ** More on the message parser ([llm/message.py]) *)

Section ParsingProperties.
Import Message.

(** X17: an assistant message is accepted exactly when it does not set
    both a function call and tool calls and sets at least one of content,
    function call and tool calls. *)
Theorem parse_assistant_accepted_iff (msg : WireMessage) :
  role msg = ASSISTANT ->
  (exists m, parse_dial_message msg = Ok m)
  <-> (function_call msg = None \/ tool_calls msg = None)
      /\ (content msg <> None \/ function_call msg <> None
          \/ tool_calls msg <> None).
Proof.
  intros Hrole. unfold parse_dial_message, _parse_assistant_message.
  rewrite Hrole.
  destruct (content msg) as [c|]; destruct (function_call msg) as [f|];
    destruct (tool_calls msg) as [t|]; split;
    try (intros [m H]; discriminate H);
    try (intros _; eexists; reflexivity);
    try (intros _; split; [tauto | intuition congruence]);
    intros [[H|H] [H'|[H'|H']]]; congruence.
Qed.

(** X18: parsing keeps the custom content (the attachments) of a user
    message and of a plain assistant message only.  On every other message
    that parses (system, tool result, function result, assistant message
    with a function call or tool calls) the custom content of the wire
    message is dropped: the parsed message serialises back without it. *)
Theorem parse_keeps_custom_content_of_regular_messages
    (msg : WireMessage) (m : AnyMessage) :
  parse_dial_message msg = Ok m ->
  custom_content (to_message m)
  = match role msg, function_call msg, tool_calls msg with
    | USER, _, _ => custom_content msg
    | ASSISTANT, None, None => custom_content msg
    | _, _, _ => None
    end.
Proof.
  unfold parse_dial_message, _parse_assistant_message.
  destruct (role msg); destruct (content msg); destruct (name msg);
    destruct (tool_call_id msg); destruct (function_call msg);
    destruct (tool_calls msg); intros H; inversion H; reflexivity.
Qed.

End ParsingProperties.

Lemma parse_assistant_accepted_iff_witness :
  (exists m,
      Message.parse_dial_message
        (Message.mkWireMessage Message.ASSISTANT None None None None None None)
      = Ok m)
  <-> (@None Message.FunctionCall = None
       \/ @None (list Message.ToolCall) = None)
      /\ (@None string <> None \/ @None Message.FunctionCall <> None
          \/ @None (list Message.ToolCall) <> None).
Proof.
  apply (parse_assistant_accepted_iff
           (Message.mkWireMessage Message.ASSISTANT None None None None None
              None)).
  reflexivity.
Defined.

Lemma parse_keeps_custom_content_of_regular_messages_witness :
  Message.custom_content
    (Message.to_message
       (Message.Tool
          (Message.AIToolCallMessage
             [Message.mkToolCall None "call_1" "function"
                (Message.mkFunctionCall "f" "{}")]
             (Some "Let me look."))))
  = None.
Proof.
  apply (parse_keeps_custom_content_of_regular_messages
           (Message.mkWireMessage Message.ASSISTANT (Some "Let me look.")
              (Some (Message.mkCustomContent
                       (Some [Message.mkAttachment (Some "image/png")
                                (Some "QUJD") None])))
              None
              (Some [Message.mkToolCall None "call_1" "function"
                       (Message.mkFunctionCall "f" "{}")])
              None None)).
  reflexivity.
Defined.
